(** * webwizard: the movie catalog of [app.py]

    A shallow embedding of the Flask application [app.py]: its four
    SQLAlchemy models, the flask-login session, and every route handler,
    followed by the properties of the handlers.

    Conventions.
    - A table is the list of its rows in rowid order; [db.session.add] of a
      new row appends, and [Query.first()] without [order_by] returns the
      first row in that order.
    - The database is the default [sqlite:///flix.db].
    - Python [str] is a Rocq [string]; only ASCII text is represented.
    - What a request reads from outside the program (the clock, the
      password hasher of werkzeug) is an explicit input of the request. *)

From Stdlib Require Import ZArith List String Ascii Bool Lia Permutation.
From Stdlib Require Import Floats.SpecFloat.
From Stdlib Require Import Sorted.
Import ListNotations.

Local Open Scope Z_scope.
Local Open Scope list_scope.

(** ** Python values *)

(** The exceptions that the handlers of [app.py] can meet. *)
Inductive Exc :=
| ValueError
| BadRequestKeyError (key : string)
| IntegrityError (msg : string).

Inductive result (A : Type) :=
| Ok (a : A)
| Raise (e : Exc).
Arguments Ok {A} a.
Arguments Raise {A} e.

Definition bind {A B} (r : result A) (k : A -> result B) : result B :=
  match r with
  | Ok a => k a
  | Raise e => Raise e
  end.

Notation "x <- r ;; k" := (bind r (fun x => k))
  (at level 61, r at next level, right associativity).

(** [str(e)] as the handlers interpolate it into a flash message. *)
Definition str_exc (e : Exc) : string :=
  match e with
  | ValueError => "invalid literal for int() with base 10"
  | BadRequestKeyError _ =>
      "400 Bad Request: The browser (or proxy) sent a request that this server could not understand."
  | IntegrityError msg => msg
  end.

(** Truth value of a [str]: [if q:] holds for a non-empty string. *)
Definition truthy (s : string) : bool :=
  match s with
  | EmptyString => false
  | _ => true
  end.

(** *** [int(s)] on a string

    CPython strips ASCII white space on both sides, reads one optional sign
    and then decimal digits, where single underscores may separate digits.
    Anything else raises [ValueError]; so does a literal of more than 4300
    digits (the default of [sys.set_int_max_str_digits]). *)

Definition is_space (c : ascii) : bool :=
  let n := Z.of_nat (nat_of_ascii c) in
  ((9 <=? n) && (n <=? 13)) || (n =? 32).

Definition digit_val (c : ascii) : option Z :=
  let n := Z.of_nat (nat_of_ascii c) in
  if (48 <=? n) && (n <=? 57) then Some (n - 48) else None.

Fixpoint dropWhile {A} (p : A -> bool) (l : list A) : list A :=
  match l with
  | [] => []
  | x :: l' => if p x then dropWhile p l' else l
  end.

Definition strip (s : list ascii) : list ascii :=
  rev (dropWhile is_space (rev (dropWhile is_space s))).

(** [after_underscore] is true at the start and right after an underscore,
    the two places where a digit is required. *)
Fixpoint int_digits (after_underscore : bool) (acc : Z) (ndigits : Z)
    (s : list ascii) : option (Z * Z) :=
  match s with
  | [] => if after_underscore then None else Some (acc, ndigits)
  | c :: s' =>
      if Ascii.eqb c "_" then
        if after_underscore then None else int_digits true acc ndigits s'
      else
        match digit_val c with
        | Some d => int_digits false (10 * acc + d) (ndigits + 1) s'
        | None => None
        end
  end.

Definition max_str_digits : Z := 4300.

Definition int_unsigned (s : list ascii) : option Z :=
  match int_digits true 0 0 s with
  | Some (n, k) => if max_str_digits <? k then None else Some n
  | None => None
  end.

Definition int_of_chars (s : list ascii) : option Z :=
  match strip s with
  | c :: s' =>
      if Ascii.eqb c "-" then option_map Z.opp (int_unsigned s')
      else if Ascii.eqb c "+" then int_unsigned s'
      else int_unsigned (c :: s')
  | [] => None
  end.

Definition py_int (s : string) : result Z :=
  match int_of_chars (list_ascii_of_string s) with
  | Some n => Ok n
  | None => Raise ValueError
  end.


(** ** The models *)

Module User.
Record t := mk {
  id : Z;
  username : string;
  email : string;
  password_hash : string
}.
End User.

(** The nullable columns of [Movie] are written by [add_movie], [edit_movie]
    and [seed_data] only, and always with a value. *)
Module Movie.
Record t := mk {
  id : Z;
  title : string;
  synopsis : string;
  poster : string;
  year : Z;
  genre : string;
  duration : string
}.
End Movie.

Module WatchlistItem.
Record t := mk {
  id : Z;
  user_id : Z;
  movie_id : Z
}.
End WatchlistItem.

(** [timestamp] is the value of SQL [CURRENT_TIMESTAMP], in seconds. *)
Module Review.
Record t := mk {
  id : Z;
  text : string;
  rating : Z;
  timestamp : Z;
  user_id : Z;
  movie_id : Z
}.
End Review.

Record Store := mkStore {
  users : list User.t;
  movies : list Movie.t;
  watchlist_items : list WatchlistItem.t;
  reviews : list Review.t
}.

(** [db.create_all()] on a fresh database. *)
Definition create_all : Store := mkStore [] [] [] [].

(** ** The persistence layer *)

(** An [INTEGER PRIMARY KEY] left out of an [INSERT] gets one more than the
    largest key of the table, and 1 in an empty table. *)
Definition next_id (ids : list Z) : Z :=
  fold_right Z.max 0 ids + 1.

(** [db.session.get(Model, key)] *)
Definition get_user (st : Store) (key : Z) : option User.t :=
  find (fun u => User.id u =? key) (users st).

Definition get_movie (st : Store) (key : Z) : option Movie.t :=
  find (fun m => Movie.id m =? key) (movies st).

(** [query(WatchlistItem).filter_by(user_id=.., movie_id=..)] *)
Definition watchlist_by (uid mid : Z) (i : WatchlistItem.t) : bool :=
  (WatchlistItem.user_id i =? uid) && (WatchlistItem.movie_id i =? mid).

(** [query(Review).filter_by(user_id=.., movie_id=..)] *)
Definition review_by (uid mid : Z) (r : Review.t) : bool :=
  (Review.user_id r =? uid) && (Review.movie_id r =? mid).

(** [query(Review).filter_by(movie_id=..)] *)
Definition review_of_movie (mid : Z) (r : Review.t) : bool :=
  Review.movie_id r =? mid.

(** [(User.username == username) | (User.email == email)] *)
Definition user_by (name mail : string) (u : User.t) : bool :=
  String.eqb (User.username u) name || String.eqb (User.email u) mail.

(** The [INSERT]s, each with the unique constraints of its table. *)
Definition insert_user (st : Store) (name mail pw_hash : string) : result (Store * User.t) :=
  if existsb (fun u => String.eqb (User.username u) name) (users st) then
    Raise (IntegrityError "UNIQUE constraint failed: user.username")
  else if existsb (fun u => String.eqb (User.email u) mail) (users st) then
    Raise (IntegrityError "UNIQUE constraint failed: user.email")
  else
    let u := User.mk (next_id (map User.id (users st))) name mail pw_hash in
    Ok (mkStore (users st ++ [u]) (movies st) (watchlist_items st) (reviews st), u).

Definition insert_movie (st : Store) (title genre poster : string) (year : Z)
    (duration synopsis : string) : Store * Movie.t :=
  let m := Movie.mk (next_id (map Movie.id (movies st)))
             title synopsis poster year genre duration in
  (mkStore (users st) (movies st ++ [m]) (watchlist_items st) (reviews st), m).

Definition insert_watchlist_item (st : Store) (uid mid : Z) : result Store :=
  if existsb (watchlist_by uid mid) (watchlist_items st) then
    Raise (IntegrityError
      "UNIQUE constraint failed: watchlist_item.user_id, watchlist_item.movie_id")
  else
    let i := WatchlistItem.mk (next_id (map WatchlistItem.id (watchlist_items st))) uid mid in
    Ok (mkStore (users st) (movies st) (watchlist_items st ++ [i]) (reviews st)).

(** The [timestamp] column takes its default, [CURRENT_TIMESTAMP]. *)
Definition insert_review (st : Store) (now uid mid rating : Z) (text : string)
    : result Store :=
  if existsb (review_by uid mid) (reviews st) then
    Raise (IntegrityError "UNIQUE constraint failed: review.user_id, review.movie_id")
  else
    let r := Review.mk (next_id (map Review.id (reviews st))) text rating now uid mid in
    Ok (mkStore (users st) (movies st) (watchlist_items st) (reviews st ++ [r])).

(** [db.session.delete(watchlist_item)]: a [DELETE] by primary key. *)
Definition delete_watchlist_item (st : Store) (i : WatchlistItem.t) : Store :=
  mkStore (users st) (movies st)
    (filter (fun j => negb (WatchlistItem.id j =? WatchlistItem.id i)) (watchlist_items st))
    (reviews st).

(** The [UPDATE] of the three columns that [submit_review] assigns. *)
Definition update_review (st : Store) (old : Review.t) (now rating : Z) (text : string)
    : Store :=
  mkStore (users st) (movies st) (watchlist_items st)
    (map (fun r =>
            if Review.id r =? Review.id old
            then Review.mk (Review.id r) text rating now (Review.user_id r) (Review.movie_id r)
            else r)
         (reviews st)).

(** The [UPDATE] of [edit_movie]. *)
Definition update_movie (st : Store) (old : Movie.t) (title genre poster : string)
    (year : Z) (duration synopsis : string) : Store * Movie.t :=
  let m := Movie.mk (Movie.id old) title synopsis poster year genre duration in
  (mkStore (users st)
     (map (fun x => if Movie.id x =? Movie.id old then m else x) (movies st))
     (watchlist_items st) (reviews st), m).

(** A stable insertion sort: [ORDER BY] keeps rowid order among equal keys. *)
Fixpoint insert_by {A} (le : A -> A -> bool) (x : A) (l : list A) : list A :=
  match l with
  | [] => [x]
  | y :: l' => if le x y then x :: l else y :: insert_by le x l'
  end.

Fixpoint sort_by {A} (le : A -> A -> bool) (l : list A) : list A :=
  match l with
  | [] => []
  | x :: l' => insert_by le x (sort_by le l')
  end.

(** [SELECT DISTINCT]: the first occurrence of every value. *)
Fixpoint distinct (l : list string) : list string :=
  match l with
  | [] => []
  | x :: l' => x :: filter (fun y => negb (String.eqb y x)) (distinct l')
  end.

(** *** [ilike]

    On SQLite [Movie.title.ilike(pattern)] is [lower(title) LIKE lower(pattern)]:
    [%] matches any run of characters, [_] any one character, and ASCII
    letters match without regard to case. *)

Definition lower (c : ascii) : ascii :=
  let n := nat_of_ascii c in
  if (Nat.leb 65 n && Nat.leb n 90)%bool then ascii_of_nat (n + 32) else c.

Fixpoint like (pattern : list ascii) : list ascii -> bool :=
  match pattern with
  | [] => fun s => match s with [] => true | _ => false end
  | p :: pattern' =>
      if Ascii.eqb p "%" then
        fix any (s : list ascii) : bool :=
          like pattern' s || match s with [] => false | _ :: s' => any s' end
      else if Ascii.eqb p "_" then
        fun s => match s with [] => false | _ :: s' => like pattern' s' end
      else
        fun s => match s with
                 | [] => false
                 | c :: s' => Ascii.eqb (lower p) (lower c) && like pattern' s'
                 end
  end.

Definition ilike (column pattern : string) : bool :=
  like (list_ascii_of_string pattern) (list_ascii_of_string column).


(** *** Floating point

    SQLite's [avg] and Python's [float] are IEEE 754 binary64 numbers. *)

Definition prec : Z := 53.
Definition emax : Z := 1024.

(** The conversion of an integer, rounded to nearest even. *)
Definition float_of_Z (n : Z) : spec_float :=
  binary_normalize prec emax n 0 false.

Definition sum_Z (l : list Z) : Z := fold_right Z.add 0 l.

(** [func.avg(column)]: [NULL] without rows, else the sum of the column
    as a double divided by the number of rows as a double. *)
Definition sql_avg (column : list Z) : option spec_float :=
  match column with
  | [] => None
  | _ => Some (SFdiv prec emax (float_of_Z (sum_Z column))
                               (float_of_Z (Z.of_nat (List.length column))))
  end.

(** The integer nearest to [num / den], for [0 < den]; of two equally near
    ones the even one. *)
Definition round_half_even (num den : Z) : Z :=
  let q := num / den in
  match 2 * (num mod den) ?= den with
  | Lt => q
  | Eq => if Z.even q then q else q + 1
  | Gt => q + 1
  end.

(** The number of tenths nearest to the exact value [m * 2^e]. *)
Definition tenths (m : positive) (e : Z) : Z :=
  round_half_even (10 * Z.pos m) (2 ^ (- e)).

(** [round(x, 1)] on a float: the exact value of [x] is rounded to a whole
    number of tenths, and the result is the double nearest to that decimal.
    A double with a non-negative exponent is an integer and is returned as it
    is, as are zeros, infinities and NaN. *)
Definition py_round1 (x : spec_float) : spec_float :=
  match x with
  | S754_finite s m e =>
      if 0 <=? e then x
      else
        match tenths m e with
        | Z.pos t => SFdiv prec emax (S754_finite s t 0) (S754_finite false 10 0)
        | _ => S754_zero s
        end
  | _ => x
  end.

(** Truth value of a [float]: everything but zero. *)
Definition float_truthy (x : spec_float) : bool :=
  match x with
  | S754_zero _ => false
  | _ => true
  end.

(** ** Requests and responses *)

Inductive Method := GET | POST.

(** [args] is the query string and [form] the body, both in order. The last
    three fields are what the handler obtains from its environment during the
    request: SQL [CURRENT_TIMESTAMP] and the two functions of
    [werkzeug.security] (the first one salts, so it differs between requests). *)
Record Request := mkRequest {
  method : Method;
  args : list (string * string);
  form : list (string * string);
  referrer : option string;
  current_timestamp : Z;
  generate_password_hash : string -> string;
  check_password_hash : string -> string -> bool
}.

(** [MultiDict.get(key)]: the first value of the key. *)
Fixpoint get (key : string) (d : list (string * string)) : option string :=
  match d with
  | [] => None
  | (k, v) :: d' => if String.eqb k key then Some v else get key d'
  end.

(** [request.args.get(key, '')] *)
Definition get_str (key : string) (d : list (string * string)) : string :=
  match get key d with
  | Some v => v
  | None => EmptyString
  end.

(** [request.form[key]] *)
Definition getitem (key : string) (d : list (string * string)) : result string :=
  match get key d with
  | Some v => Ok v
  | None => Raise (BadRequestKeyError key)
  end.

Inductive Location :=
| url_index
| url_movie_detail (movie_id : Z)
| url_login
| url_register
| url_external (target : string).

(** What [movie_detail] passes as [avg_rating]: the string ['N/A'] or a float. *)
Inductive AvgRating :=
| NA
| Rated (x : spec_float).

Inductive Body :=
| redirect (to : Location)
| render_index (genres : list string)
| jsonify_moviecard (items : list Movie.t)
| render_movie_detail (movie : Movie.t) (is_on_watchlist : bool)
    (avg_rating : AvgRating) (reviews : list Review.t)
| render_watchlist (movies : list Movie.t)
| render_login
| render_register
| render_add_movie (movie : option Movie.t).

(** [flashed] are the calls [flash(message, category)] of the request, in order. *)
Record Response := respond {
  flashed : list (string * string);
  body : Body
}.

(** The database and the flask-login session cookie ([None]: nobody is
    logged in, [Some key]: the primary key that [login_user] stored). *)
Record World := mkWorld {
  db : Store;
  session : option Z
}.

Definition set_db (w : World) (st : Store) : World := mkWorld st (session w).

Definition View := World -> Request -> World * result Response.

(** [current_user]: what [load_user] finds for the key of the session. *)
Definition current_user (w : World) : option User.t :=
  match session w with
  | Some key => get_user (db w) key
  | None => None
  end.

(** [LoginManager.unauthorized()] with [login_view = "login"] and
    [login_message_category = "error"]. *)
Definition unauthorized : Response :=
  respond [("Please log in to access this page."%string, "error"%string)]
          (redirect url_login).

(** The decorator [@login_required]. *)
Definition login_required (view : User.t -> View) : View :=
  fun w rq =>
    match current_user w with
    | Some user => view user w rq
    | None => (w, Ok unauthorized)
    end.

Definition quoted (s : string) : string :=
  let q := String (ascii_of_nat 34) EmptyString in
  (q ++ s ++ q)%string.

(** ** The routes *)

Local Open Scope string_scope.

(** [GET /] *)
Definition index : View := fun w rq =>
  let genres := sort_by String.leb (distinct (map Movie.genre (movies (db w)))) in
  (w, Ok (respond [] (render_index (filter truthy genres)))).

Definition per_page : Z := 12.

(** The query of [api_movies] for an integer page: the optional filters,
    [ORDER BY year DESC], [OFFSET (page - 1) * per_page] and [LIMIT per_page].
    SQLite reads a negative offset as 0. *)
Definition search_movies (st : Store) (q genre : string) (page : Z) : list Movie.t :=
  let query := movies st in
  let query :=
    if truthy q then filter (fun m => ilike (Movie.title m) ("%" ++ q ++ "%")) query
    else query in
  let query :=
    if truthy genre then filter (fun m => String.eqb (Movie.genre m) genre) query
    else query in
  firstn (Z.to_nat per_page)
    (skipn (Z.to_nat ((page - 1) * per_page))
       (sort_by (fun a b => (Movie.year b <=? Movie.year a)%Z) query)).

(** [GET /api/movies]; [int(request.args.get('page', 1))] is not guarded. *)
Definition api_movies : View := fun w rq =>
  let q := get_str "q" (args rq) in
  let genre := get_str "genre" (args rq) in
  let page :=
    match get "page" (args rq) with
    | Some s => py_int s
    | None => Ok 1
    end in
  (w, page <- page ;;
      Ok (respond [] (jsonify_moviecard (search_movies (db w) q genre page)))).

Definition movie_not_found : Response :=
  respond [("Movie not found.", "error")] (redirect url_index).

(** [query(WatchlistItem).filter_by(user_id=.., movie_id=..).first() is not None] *)
Definition on_watchlist (st : Store) (uid mid : Z) : bool :=
  existsb (watchlist_by uid mid) (watchlist_items st).

(** [avg_rating = round(avg_rating, 1) if avg_rating else 'N/A'] *)
Definition avg_rating_of (avg : option spec_float) : AvgRating :=
  match avg with
  | Some x => if float_truthy x then Rated (py_round1 x) else NA
  | None => NA
  end.

(** [GET /movie/<int:movie_id>] *)
Definition movie_detail (movie_id : Z) : View := fun w rq =>
  match get_movie (db w) movie_id with
  | None => (w, Ok movie_not_found)
  | Some movie =>
      let of_movie := filter (review_of_movie movie_id) (reviews (db w)) in
      let avg_rating := avg_rating_of (sql_avg (map Review.rating of_movie)) in
      let reviews :=
        sort_by (fun a b => (Review.timestamp b <=? Review.timestamp a)%Z) of_movie in
      let is_on_watchlist :=
        match current_user w with
        | Some user => on_watchlist (db w) (User.id user) movie_id
        | None => false
        end in
      (w, Ok (respond [] (render_movie_detail movie is_on_watchlist avg_rating reviews)))
  end.

(** [POST /toggle_watchlist/<int:movie_id>] *)
Definition toggle_watchlist (movie_id : Z) : View := login_required (fun user w rq =>
  match get_movie (db w) movie_id with
  | None => (w, Ok movie_not_found)
  | Some movie =>
      let back :=
        match referrer rq with
        | Some r => if truthy r then url_external r else url_movie_detail movie_id
        | None => url_movie_detail movie_id
        end in
      match find (watchlist_by (User.id user) movie_id) (watchlist_items (db w)) with
      | Some watchlist_item =>
          (set_db w (delete_watchlist_item (db w) watchlist_item),
           Ok (respond
                 [(quoted (Movie.title movie) ++ " removed from your watchlist.", "info")]
                 (redirect back)))
      | None =>
          let added :=
            (quoted (Movie.title movie) ++ " added to your watchlist!", "success") in
          match insert_watchlist_item (db w) (User.id user) movie_id with
          | Ok st => (set_db w st, Ok (respond [added] (redirect back)))
          | Raise _ =>
              (w, Ok (respond
                        [added; ("An error occurred while updating the watchlist.", "error")]
                        (redirect back)))
          end
      end
  end).

(** [GET /watchlist]: the items of the user by descending key, and of each
    its movie unless that is gone. *)
Definition watchlist : View := login_required (fun user w rq =>
  let items :=
    sort_by (fun a b => (WatchlistItem.id b <=? WatchlistItem.id a)%Z)
      (filter (fun i => (WatchlistItem.user_id i =? User.id user)%Z) (watchlist_items (db w))) in
  let movies :=
    flat_map (fun i => match get_movie (db w) (WatchlistItem.movie_id i) with
                       | Some m => [m]
                       | None => []
                       end) items in
  (w, Ok (respond [] (render_watchlist movies)))).

(** [POST /submit_review/<int:movie_id>] *)
Definition submit_review (movie_id : Z) : View := login_required (fun user w rq =>
  match get_movie (db w) movie_id with
  | None => (w, Ok movie_not_found)
  | Some movie =>
      let back := redirect (url_movie_detail movie_id) in
      match get "rating" (form rq), get "text" (form rq) with
      | Some rating, Some text =>
          if negb (truthy rating) || negb (truthy text) then
            (w, Ok (respond [("Rating and review text are required.", "error")] back))
          else
            match py_int rating with
            | Raise _ => (w, Ok (respond [("Invalid rating submitted.", "error")] back))
            | Ok rating =>
                if negb ((1 <=? rating)%Z && (rating <=? 5)%Z) then
                  (w, Ok (respond [("Rating must be between 1 and 5.", "error")] back))
                else
                  match find (review_by (User.id user) movie_id) (reviews (db w)) with
                  | Some existing_review =>
                      (set_db w (update_review (db w) existing_review
                                   (current_timestamp rq) rating text),
                       Ok (respond [("Your review has been updated!", "success")] back))
                  | None =>
                      let posted := ("Your review has been posted!", "success") in
                      match insert_review (db w) (current_timestamp rq)
                              (User.id user) movie_id rating text with
                      | Ok st => (set_db w st, Ok (respond [posted] back))
                      | Raise _ =>
                          (w, Ok (respond
                                    [posted;
                                     ("An error occurred while posting the review: You may have already reviewed this movie.",
                                      "error")]
                                    back))
                      end
                  end
            end
      | _, _ =>
          (w, Ok (respond [("Rating and review text are required.", "error")] back))
      end
  end).

(** [login_user(user)] *)
Definition login_user (w : World) (user : User.t) : World :=
  mkWorld (db w) (Some (User.id user)).

(** [logout_user()] *)
Definition logout_user (w : World) : World := mkWorld (db w) None.

(** [GET|POST /login] *)
Definition login : View := fun w rq =>
  match current_user w with
  | Some _ => (w, Ok (respond [] (redirect url_index)))
  | None =>
      match method rq with
      | GET => (w, Ok (respond [] render_login))
      | POST =>
          match (ident <- getitem "identity" (form rq) ;;
                 password <- getitem "password" (form rq) ;;
                 Ok (ident, password)) with
          | Raise e => (w, Raise e)
          | Ok (ident, password) =>
              let invalid :=
                respond [("Invalid username/email or password.", "error")] render_login in
              match find (user_by ident ident) (users (db w)) with
              | Some user =>
                  if check_password_hash rq (User.password_hash user) password then
                    let next_page :=
                      match get "next" (args rq) with
                      | Some n => if truthy n then url_external n else url_index
                      | None => url_index
                      end in
                    (login_user w user,
                     Ok (respond [("Welcome back, " ++ User.username user ++ "!", "success")]
                           (redirect next_page)))
                  else (w, Ok invalid)
              | None => (w, Ok invalid)
              end
          end
      end
  end.

(** [GET|POST /register] *)
Definition register : View := fun w rq =>
  match current_user w with
  | Some _ => (w, Ok (respond [] (redirect url_index)))
  | None =>
      match method rq with
      | GET => (w, Ok (respond [] render_register))
      | POST =>
          match (username <- getitem "username" (form rq) ;;
                 email <- getitem "email" (form rq) ;;
                 password <- getitem "password" (form rq) ;;
                 Ok (username, email, password)) with
          | Raise e => (w, Raise e)
          | Ok (username, email, password) =>
              match find (user_by username email) (users (db w)) with
              | Some _ =>
                  (w, Ok (respond
                            [("Account with this username or email already exists.", "error")]
                            (redirect url_register)))
              | None =>
                  match insert_user (db w) username email
                          (generate_password_hash rq password) with
                  | Ok (st, user) =>
                      (login_user (set_db w st) user,
                       Ok (respond
                             [("Account created successfully. Welcome, "
                                 ++ User.username user ++ "!", "success")]
                             (redirect url_index)))
                  | Raise e =>
                      (w, Ok (respond
                                [("An error occurred during registration: " ++ str_exc e,
                                  "error")]
                                render_register))
                  end
              end
          end
      end
  end.

(** [GET /logout] *)
Definition logout : View := login_required (fun user w rq =>
  (logout_user w,
   Ok (respond [("You have been logged out.", "success")] (redirect url_index)))).

(** The form of [add_movie] and [edit_movie], read in the order of the code. *)
Definition movie_form (rq : Request)
    : result (string * string * string * Z * string * string) :=
  title <- getitem "title" (form rq) ;;
  genre <- getitem "genre" (form rq) ;;
  poster <- getitem "poster" (form rq) ;;
  year <- getitem "year" (form rq) ;;
  year <- py_int year ;;
  duration <- getitem "duration" (form rq) ;;
  synopsis <- getitem "synopsis" (form rq) ;;
  Ok (title, genre, poster, year, duration, synopsis).

Definition invalid_year : string * string :=
  ("Invalid input for Year. Please enter a valid number.", "error").

(** [GET|POST /admin/add] *)
Definition add_movie : View := login_required (fun user w rq =>
  if negb (String.eqb (User.username user) "admin") then
    (w, Ok (respond [("Access denied. Only the admin can add movies.", "error")]
              (redirect url_index)))
  else
    match method rq with
    | GET => (w, Ok (respond [] (render_add_movie None)))
    | POST =>
        match movie_form rq with
        | Ok (title, genre, poster, year, duration, synopsis) =>
            let '(st, m) := insert_movie (db w) title genre poster year duration synopsis in
            (set_db w st,
             Ok (respond [("Movie " ++ quoted title ++ " added successfully!", "success")]
                   (redirect (url_movie_detail (Movie.id m)))))
        | Raise ValueError => (w, Ok (respond [invalid_year] (render_add_movie None)))
        | Raise e =>
            (w, Ok (respond
                      [("An error occurred while adding the movie: " ++ str_exc e, "error")]
                      (render_add_movie None)))
        end
    end).

(** [GET|POST /admin/edit/<int:movie_id>] *)
Definition edit_movie (movie_id : Z) : View := login_required (fun user w rq =>
  if negb (String.eqb (User.username user) "admin") then
    (w, Ok (respond [("Access denied. Only the admin can edit movies.", "error")]
              (redirect (url_movie_detail movie_id))))
  else
    match get_movie (db w) movie_id with
    | None => (w, Ok movie_not_found)
    | Some movie =>
        match method rq with
        | GET => (w, Ok (respond [] (render_add_movie (Some movie))))
        | POST =>
            match movie_form rq with
            | Ok (title, genre, poster, year, duration, synopsis) =>
                let '(st, m) :=
                  update_movie (db w) movie title genre poster year duration synopsis in
                (set_db w st,
                 Ok (respond
                       [("Movie " ++ quoted (Movie.title m) ++ " updated successfully!",
                         "success")]
                       (redirect (url_movie_detail (Movie.id m)))))
            | Raise ValueError =>
                (w, Ok (respond [invalid_year] (render_add_movie (Some movie))))
            | Raise e =>
                (w, Ok (respond
                          [("An error occurred while updating the movie: " ++ str_exc e,
                            "error")]
                          (render_add_movie (Some movie))))
            end
        end
    end).

(** ** Seeding *)

Definition sample : list (string * string * string * Z * string * string) :=
  [ ("Interstellar", "Sci-Fi",
     "https://cdna.artstation.com/p/assets/images/images/063/201/604/large/ian-papa-inter.jpg?1684955718",
     2014%Z, "2h 49m",
     "A team of explorers travels through a wormhole in space in an attempt to ensure humanity's survival.");
    ("Dune: Part One", "Sci-Fi",
     "https://th.bing.com/th/id/OIP.H8940g-GeXdBWSXjUjh2swHaK8?w=205&h=303&c=7&r=0&o=7&cb=ucfimg2&dpr=1.3&pid=1.7&rm=3&ucfimg=1",
     2021%Z, "2h 35m",
     "Paul Atreides leads nomadic tribes in a battle to control the desert planet Arrakis and its valuable spice.");
    ("Harry Potter and the Sorcerer's Stone", "Fantasy",
     "https://wallpapers.com/images/hd/harry-potter-all-characters-lvbwsigjt3yykg3n.jpg",
     2001%Z, "2h 32m",
     "An orphaned boy discovers he is a wizard and attends a magical school where he faces his destiny.");
    ("3 Idiots", "Comedy",
     "https://m.media-amazon.com/images/M/MV5BNTkyOGVjMGEtNmQzZi00NzFlLTlhOWQtODYyMDc2ZGJmYzFhXkEyXkFqcGdeQXVyNjU0OTQ0OTY@._V1_.jpg",
     2009%Z, "2h 50m",
     "Three engineering students navigate life, friendship, and education with a brilliant yet unconventional classmate.");
    ("Life of Pi", "Adventure",
     "https://tse1.mm.bing.net/th/id/OIP.WRQCZc_zReaLUXjSFa0z9QHaF7?cb=ucfimg2ucfimg=1&rs=1&pid=ImgDetMain&o=7&rm=3",
     2012%Z, "2h 7m",
     "After a shipwreck, a young man survives on a lifeboat with a Bengal tiger, discovering spirituality and survival.");
    ("Rio", "Animation",
     "https://assets.puzzlefactory.com/puzzle/482/150/original.jpg",
     2011%Z, "1h 36m",
     "A domesticated blue macaw travels to Rio de Janeiro, where he learns to fly and embrace adventure.");
    ("Inception", "Sci-Fi",
     "https://c8.alamy.com/comp/DBW2R3/inception-2010-leonardo-dicaprio-christopher-nolan-dir-016-moviestore-DBW2R3.jpg",
     2010%Z, "2h 28m",
     "A thief who steals corporate secrets through dream-sharing technology is tasked with planting an idea into a CEO's mind.");
    ("Avatar", "Fantasy",
     "https://mlpnk72yciwc.i.optimole.com/cqhiHLc.IIZS~2ef73/w:auto/h:auto/q:75/https://bleedingcool.com/wp-content/uploads/2022/11/AVATAR_THE_WAY_OF_WATER_1SHT_DIGITAL_LOAK_sRGB_V1.jpg",
     2009%Z, "2h 42m",
     "A paraplegic Marine is sent to the moon Pandora, where he becomes torn between following orders and protecting its world.");
    ("The Dark Knight", "Action",
     "https://v3img.voot.com/v3Storage/assets/the_dark_knight_1920x1080-1685950193383.jpg",
     2008%Z, "2h 32m",
     "Batman faces his greatest psychological and physical test yet as he battles the Joker's chaos in Gotham.");
    ("Frozen", "Animation",
     "https://images.hdqwalls.com/wallpapers/hd-frozen.jpg",
     2013%Z, "1h 42m",
     "When Queen Elsa's icy powers trap her kingdom in eternal winter, her sister Anna sets out to save her.") ].

(** The loop [for m in sample]: a movie is added unless its title is there. *)
Definition seed_movie (st : Store) (m : string * string * string * Z * string * string)
    : Store :=
  let '(title, genre, poster, year, duration, synopsis) := m in
  match find (fun x => String.eqb (Movie.title x) title) (movies st) with
  | Some _ => st
  | None => fst (insert_movie st title genre poster year duration synopsis)
  end.

Definition seed_review_text : string :=
  "A visually stunning and faithful adaptation. The sound design is incredible.".

(** [seed_data()], at time [now] with the hasher [hash]: the tables are
    dropped and created again, then filled. *)
Definition seed_data (now : Z) (hash : string -> string) : Store :=
  let st := create_all in
  let st :=
    match find (fun u => String.eqb (User.username u) "admin") (users st) with
    | Some _ => st
    | None =>
        match insert_user st "admin" "admin@flix.com" (hash "password123") with
        | Ok (st', _) => st'
        | Raise _ => st
        end
    end in
  if (Z.of_nat (List.length (movies st)) <? 10)%Z then
    let st := fold_left seed_movie sample st in
    match find (fun u => String.eqb (User.username u) "admin") (users st),
          find (fun x => String.eqb (Movie.title x) "Dune: Part One") (movies st),
          reviews st with
    | Some admin_user, Some dune, [] =>
        match insert_review st now (User.id admin_user) (Movie.id dune) 5 seed_review_text with
        | Ok st' => st'
        | Raise _ => st
        end
    | _, _, _ => st
    end
  else st.

(** ** The application as a transition system *)

Inductive Route :=
| route_index
| route_api_movies
| route_movie_detail (movie_id : Z)
| route_toggle_watchlist (movie_id : Z)
| route_watchlist
| route_submit_review (movie_id : Z)
| route_login
| route_register
| route_logout
| route_add_movie
| route_edit_movie (movie_id : Z).

Definition handle (r : Route) : View :=
  match r with
  | route_index => index
  | route_api_movies => api_movies
  | route_movie_detail movie_id => movie_detail movie_id
  | route_toggle_watchlist movie_id => toggle_watchlist movie_id
  | route_watchlist => watchlist
  | route_submit_review movie_id => submit_review movie_id
  | route_login => login
  | route_register => register
  | route_logout => logout
  | route_add_movie => add_movie
  | route_edit_movie movie_id => edit_movie movie_id
  end.

(** The worlds that the application reaches: it starts on the seeded
    database, or on empty tables, with nobody logged in, and then serves
    requests one after the other. *)
Inductive reachable : World -> Prop :=
| reach_seeded now hash : reachable (mkWorld (seed_data now hash) None)
| reach_created : reachable (mkWorld create_all None)
| reach_request w r rq : reachable w -> reachable (fst (handle r w rq)).


(** ** The constraints of the schema, as predicates on a store *)

Definition watchlist_key (i : WatchlistItem.t) : Z * Z :=
  (WatchlistItem.user_id i, WatchlistItem.movie_id i).

Definition review_key (r : Review.t) : Z * Z :=
  (Review.user_id r, Review.movie_id r).

(** [UniqueConstraint('user_id', 'movie_id')] of [WatchlistItem]. *)
Definition unique_watchlist_pairs (st : Store) : Prop :=
  NoDup (map watchlist_key (watchlist_items st)).

(** [UniqueConstraint('user_id', 'movie_id')] of [Review]. *)
Definition unique_review_pairs (st : Store) : Prop :=
  NoDup (map review_key (reviews st)).

(** [unique=True] of [User.username] and of [User.email]. *)
Definition unique_usernames (st : Store) : Prop :=
  NoDup (map User.username (users st)).

Definition unique_emails (st : Store) : Prop :=
  NoDup (map User.email (users st)).

(** The comment [# 1 to 5] on [Review.rating], and a review text. *)
Definition valid_review (r : Review.t) : Prop :=
  (1 <= Review.rating r <= 5)%Z /\ Review.text r <> EmptyString.

Record consistent (st : Store) : Prop := {
  consistent_watchlist : unique_watchlist_pairs st;
  consistent_reviews : unique_review_pairs st;
  consistent_usernames : unique_usernames st;
  consistent_emails : unique_emails st;
  consistent_ratings : Forall valid_review (reviews st)
}.

(** Whether a response flashes a message of category ["error"]. *)
Definition flashes_error (r : Response) : bool :=
  existsb (fun f => String.eqb (snd f) "error") (flashed r).

(** The responses that the properties below name. *)
Definition conflict : Response :=
  respond [("Account with this username or email already exists.", "error")]
          (redirect url_register).

Definition access_denied : Response :=
  respond [("Access denied. Only the admin can add movies.", "error")]
          (redirect url_index).

Definition logged_out : Response :=
  respond [("You have been logged out.", "success")] (redirect url_index).


(** A world and requests on which the properties are tried: the seeded
    database with the administrator logged in. *)
Definition example_hash (password : string) : string := "pbkdf2:sha256$" ++ password.

Definition example_check (pw_hash password : string) : bool :=
  String.eqb pw_hash (example_hash password).

Definition example_request (m : Method) (a f : list (string * string)) (now : Z) : Request :=
  mkRequest m a f None now example_hash example_check.

Definition example_store : Store := seed_data 1700000000 example_hash.

Definition example_world : World := mkWorld example_store (Some 1%Z).

(** The same database after a visitor has registered, who is then logged in. *)
Definition example_register : Request :=
  example_request POST []
    [("username", "alice"); ("email", "alice@example.org"); ("password", "secret")]
    1700000100.

Definition visitor_world : World :=
  fst (register (mkWorld example_store None) example_register).

Definition alice : User.t :=
  User.mk 2 "alice" "alice@example.org" (example_hash "secret").

(** A run from the seeded database: the administrator logs in and rewrites
    the seeded review. *)
Definition example_run : World :=
  let w0 := mkWorld (seed_data 1700000000 example_hash) None in
  let w1 := fst (handle route_login w0
                   (example_request POST []
                      [("identity", "admin"); ("password", "password123")] 1700000900)) in
  fst (handle (route_submit_review 2) w1
         (example_request POST [] [("rating", "4"); ("text", "Second thoughts.")]
            1700001000)).

(** ** Keys and guards, as predicates *)

(** [primary_key=True] of the four models. *)
Record primary_keys (st : Store) : Prop := {
  pk_users : NoDup (map User.id (users st));
  pk_movies : NoDup (map Movie.id (movies st));
  pk_watchlist : NoDup (map WatchlistItem.id (watchlist_items st));
  pk_reviews : NoDup (map Review.id (reviews st))
}.

(** The [db.ForeignKey] columns of [WatchlistItem] and [Review]; SQLite does
    not check them. *)
Record foreign_keys (st : Store) : Prop := {
  fk_watchlist :
    Forall (fun i => In (WatchlistItem.user_id i) (map User.id (users st)) /\
                     In (WatchlistItem.movie_id i) (map Movie.id (movies st)))
           (watchlist_items st);
  fk_reviews :
    Forall (fun r => In (Review.user_id r) (map User.id (users st)) /\
                     In (Review.movie_id r) (map Movie.id (movies st)))
           (reviews st)
}.

(** The key in the session cookie is the key of a stored user. *)
Definition session_valid (w : World) : Prop :=
  match session w with
  | Some key => In key (map User.id (users (db w)))
  | None => True
  end.

Record integral (w : World) : Prop := {
  integral_pk : primary_keys (db w);
  integral_fk : foreign_keys (db w);
  integral_session : session_valid w
}.

(** The routes decorated with [@login_required]. *)
Definition protected (r : Route) : bool :=
  match r with
  | route_toggle_watchlist _ | route_watchlist | route_submit_review _
  | route_logout | route_add_movie | route_edit_movie _ => true
  | _ => false
  end.

Definition edit_denied (movie_id : Z) : Response :=
  respond [("Access denied. Only the admin can edit movies.", "error")]
          (redirect (url_movie_detail movie_id)).

(** The requests without a session, on the seeded database. *)
Definition anonymous_world : World := mkWorld example_store None.

(** * Properties *)

(** ** Parsing *)

Lemma py_int_empty : py_int EmptyString = Raise ValueError.
Proof. reflexivity. Qed.

Lemma py_int_truthy (s : string) (n : Z) : py_int s = Ok n -> truthy s = true.
Proof.
  destruct s as [|c s]; [discriminate | reflexivity].
Qed.

Lemma truthy_nonempty (s : string) : truthy s = true <-> s <> EmptyString.
Proof.
  destruct s; simpl; split; intro H; congruence.
Qed.

(** ** Guards *)

Lemma login_required_anonymous (view : User.t -> View) (w : World) (rq : Request) :
  current_user w = None -> login_required view w rq = (w, Ok unauthorized).
Proof.
  intro H. unfold login_required. now rewrite H.
Qed.

Lemma login_required_user (view : User.t -> View) (w : World) (rq : Request) (user : User.t) :
  current_user w = Some user -> login_required view w rq = view user w rq.
Proof.
  intro H. unfold login_required. now rewrite H.
Qed.

(** C10: a search request whose [page] argument does not parse as an integer
    leaves [api_movies] with the [ValueError] of [int()]: there is no result
    page and no flashed error, the exception reaches the framework. *)
Theorem api_movies_page_not_numeric (w : World) (rq : Request) (s : string) :
  get "page" (args rq) = Some s ->
  py_int s = Raise ValueError ->
  api_movies w rq = (w, Raise ValueError).
Proof.
  intros Hget Hint. unfold api_movies. rewrite Hget, Hint. reflexivity.
Qed.

Lemma api_movies_page_not_numeric_witness :
  let rq := example_request GET [("page", "abc")] [] 0 in
  get "page" (args rq) = Some "abc" /\
  py_int "abc" = Raise ValueError /\
  api_movies example_world rq = (example_world, Raise ValueError).
Proof.
  split; [reflexivity | split; [reflexivity |]].
  apply (api_movies_page_not_numeric example_world _ "abc"); reflexivity.
Defined.

(** C6: when the logged-in user is not called [admin], [add_movie] answers
    with the access-denied flash and a redirect to the index, whatever the
    method and the form, and the world, so also the movie table, is as before. *)
Theorem add_movie_not_admin (w : World) (rq : Request) (user : User.t) :
  current_user w = Some user ->
  User.username user <> "admin" ->
  add_movie w rq = (w, Ok access_denied) /\
  movies (db (fst (add_movie w rq))) = movies (db w).
Proof.
  intros Huser Hname.
  assert (E : add_movie w rq = (w, Ok access_denied)).
  { unfold add_movie. rewrite (login_required_user _ _ _ _ Huser).
    apply String.eqb_neq in Hname. now rewrite Hname. }
  split; [exact E | now rewrite E].
Qed.

Lemma add_movie_not_admin_witness :
  let rq := example_request POST []
              [("title", "Heat"); ("genre", "Action"); ("poster", "p"); ("year", "1995");
               ("duration", "2h 50m"); ("synopsis", "s")] 1700000200 in
  add_movie visitor_world rq = (visitor_world, Ok access_denied) /\
  movies (db (fst (add_movie visitor_world rq))) = movies (db visitor_world).
Proof.
  apply (add_movie_not_admin visitor_world _ alice).
  - reflexivity.
  - discriminate.
Defined.

(** C7, as the specification words it, fails: without a session [logout]
    does not succeed; the guard [@login_required] answers instead, with a
    flash of category error and a redirect to the login page. *)
Lemma logout_without_session_is_refused :
  let w := mkWorld example_store None in
  let rq := example_request GET [] [] 1700000300 in
  session w = None /\
  snd (logout w rq) = Ok unauthorized /\
  snd (logout w rq) <> Ok logged_out /\
  flashes_error unauthorized = true.
Proof.
  repeat split. discriminate.
Qed.

(** C7, amended: without a logged-in user [logout] changes nothing, neither
    the database nor the session, and is answered by the login guard with the
    flash "Please log in to access this page." of category error and a
    redirect to the login page; with a logged-in user it ends the session,
    leaves the database alone and answers with the logged-out flash, after
    which nobody is logged in. *)
Theorem logout_guarded (w : World) (rq : Request) :
  (current_user w = None -> logout w rq = (w, Ok unauthorized)) /\
  (forall user, current_user w = Some user ->
     logout w rq = (mkWorld (db w) None, Ok logged_out) /\
     current_user (fst (logout w rq)) = None).
Proof.
  split.
  - intro H. unfold logout. now apply login_required_anonymous.
  - intros user H. unfold logout. rewrite (login_required_user _ _ _ _ H).
    split; reflexivity.
Qed.

Lemma logout_guarded_witness :
  let rq := example_request GET [] [] 1700000300 in
  logout (mkWorld example_store None) rq = (mkWorld example_store None, Ok unauthorized) /\
  logout example_world rq = (mkWorld example_store None, Ok logged_out) /\
  current_user (fst (logout example_world rq)) = None.
Proof.
  intro rq. split.
  - apply (proj1 (logout_guarded (mkWorld example_store None) rq)). reflexivity.
  - apply (proj2 (logout_guarded example_world rq)
             (User.mk 1 "admin" "admin@flix.com" (example_hash "password123"))).
    reflexivity.
Defined.

(** ** Registration *)

Lemma find_user_by_some (l : list User.t) (u : User.t) (name mail : string) :
  In u l -> mail = User.email u \/ name = User.username u ->
  exists v, find (user_by name mail) l = Some v.
Proof.
  intros Hin Hreuse.
  destruct (find (user_by name mail) l) as [v|] eqn:E; [now exists v |].
  exfalso. apply (find_none _ _ E) in Hin.
  unfold user_by in Hin. apply orb_false_elim in Hin. destruct Hin as [Hn Hm].
  apply String.eqb_neq in Hn, Hm. destruct Hreuse; congruence.
Qed.

(** C4: when a user exists, a registration that reuses that user's email
    (under any username) or that user's username (under any email) leaves the
    world as it is, so no user row is added; sent as a [POST] by a visitor who
    is not logged in, it is answered with the flash "Account with this
    username or email already exists." and a redirect back to the form. *)
Theorem register_conflict (w : World) (rq : Request) (u : User.t)
    (name mail password : string) :
  In u (users (db w)) ->
  get "username" (form rq) = Some name ->
  get "email" (form rq) = Some mail ->
  get "password" (form rq) = Some password ->
  mail = User.email u \/ name = User.username u ->
  fst (register w rq) = w /\
  (current_user w = None -> method rq = POST -> snd (register w rq) = Ok conflict).
Proof.
  intros Hin Hn Hm Hp Hreuse.
  destruct (find_user_by_some _ _ name mail Hin Hreuse) as [v Hv].
  unfold register, getitem. rewrite Hn, Hm, Hp. simpl. rewrite Hv.
  destruct (current_user w); [split; [reflexivity | discriminate] |].
  destruct (method rq); split; try reflexivity; intros; congruence.
Qed.

Lemma register_conflict_witness :
  let w := mkWorld example_store None in
  let rq_mail := example_request POST []
       [("username", "bob"); ("email", "admin@flix.com"); ("password", "x")] 1700000400 in
  let rq_name := example_request POST []
       [("username", "admin"); ("email", "bob@example.org"); ("password", "x")] 1700000400 in
  (fst (register w rq_mail) = w /\ snd (register w rq_mail) = Ok conflict) /\
  (fst (register w rq_name) = w /\ snd (register w rq_name) = Ok conflict).
Proof.
  intros w rq_mail rq_name.
  pose (admin := User.mk 1 "admin" "admin@flix.com" (example_hash "password123")).
  assert (Hin : In admin (users (db w))) by (left; reflexivity).
  split.
  - destruct (register_conflict w rq_mail admin "bob" "admin@flix.com" "x" Hin
                eq_refl eq_refl eq_refl (or_introl eq_refl)) as [H1 H2].
    split; [exact H1 | apply H2; reflexivity].
  - destruct (register_conflict w rq_name admin "admin" "bob@example.org" "x" Hin
                eq_refl eq_refl eq_refl (or_intror eq_refl)) as [H1 H2].
    split; [exact H1 | apply H2; reflexivity].
Defined.

Lemma find_user_by_none (l : list User.t) (name mail : string) :
  find (user_by name mail) l = None ->
  existsb (fun u => String.eqb (User.username u) name) l = false /\
  existsb (fun u => String.eqb (User.email u) mail) l = false.
Proof.
  induction l as [|u l IH]; simpl; [now split |].
  unfold user_by at 1.
  destruct (String.eqb (User.username u) name); simpl; [discriminate |].
  destruct (String.eqb (User.email u) mail); simpl; [discriminate |].
  exact IH.
Qed.

Lemma insert_user_fresh (st : Store) (name mail pw_hash : string) :
  find (user_by name mail) (users st) = None ->
  insert_user st name mail pw_hash =
    let u := User.mk (next_id (map User.id (users st))) name mail pw_hash in
    Ok (mkStore (users st ++ [u])%list (movies st) (watchlist_items st) (reviews st), u).
Proof.
  intro H. apply find_user_by_none in H. destruct H as [Hn Hm].
  unfold insert_user. now rewrite Hn, Hm.
Qed.

(** C8, as the specification words it, fails: [register] accepts an empty
    username, an empty password and an email without an at sign, and stores
    the row. *)
Lemma register_accepts_empty_fields :
  let w := mkWorld example_store None in
  let rq := example_request POST []
              [("username", EmptyString); ("email", "not-an-email");
               ("password", EmptyString)] 1700000500 in
  users (db (fst (register w rq))) =
    (users (db w) ++ [User.mk 2 EmptyString "not-an-email" (example_hash EmptyString)])%list /\
  users (db (fst (register w rq))) <> users (db w).
Proof.
  split; [reflexivity | discriminate].
Qed.

(** C8, amended: [register] does not look at the fields it is given beyond
    comparing them with the stored usernames and emails. For every username,
    email and password, empty strings and malformed emails included: when
    nobody is logged in, the request is a [POST] that carries the three
    fields, and no stored user has that username or that email, [register]
    appends the user row with exactly these values and the hash of the
    password, logs that user in and redirects to the index with the welcome
    flash. *)
Theorem register_unvalidated (w : World) (rq : Request) (name mail password : string) :
  current_user w = None ->
  method rq = POST ->
  get "username" (form rq) = Some name ->
  get "email" (form rq) = Some mail ->
  get "password" (form rq) = Some password ->
  find (user_by name mail) (users (db w)) = None ->
  let user := User.mk (next_id (map User.id (users (db w)))) name mail
                (generate_password_hash rq password) in
  register w rq =
    (mkWorld (mkStore (users (db w) ++ [user])%list (movies (db w))
                (watchlist_items (db w)) (reviews (db w)))
             (Some (User.id user)),
     Ok (respond [("Account created successfully. Welcome, " ++ name ++ "!", "success")]
           (redirect url_index))).
Proof.
  intros Hanon Hpost Hn Hm Hp Hfree user.
  unfold register, getitem. rewrite Hanon, Hpost, Hn, Hm, Hp. simpl.
  rewrite Hfree, (insert_user_fresh _ _ _ _ Hfree). reflexivity.
Qed.

Lemma register_unvalidated_witness :
  let w := mkWorld example_store None in
  let rq := example_request POST []
              [("username", EmptyString); ("email", "not-an-email");
               ("password", EmptyString)] 1700000500 in
  let user := User.mk 2 EmptyString "not-an-email" (example_hash EmptyString) in
  register w rq =
    (mkWorld (mkStore (users example_store ++ [user])%list (movies example_store)
                (watchlist_items example_store) (reviews example_store))
             (Some 2%Z),
     Ok (respond [("Account created successfully. Welcome, !", "success")]
           (redirect url_index))).
Proof.
  intros w rq user.
  exact (register_unvalidated w rq EmptyString "not-an-email" EmptyString
           eq_refl eq_refl eq_refl eq_refl eq_refl eq_refl).
Defined.

(** ** Lists and keys *)

Lemma existsb_find {A} (p : A -> bool) (l : list A) :
  existsb p l = match find p l with Some _ => true | None => false end.
Proof.
  induction l as [|x l IH]; simpl; [reflexivity |].
  destruct (p x); [reflexivity | exact IH].
Qed.

Lemma NoDup_map_injective {A B} (f : A -> B) (l : list A) (x y : A) :
  NoDup (map f l) -> In x l -> In y l -> f x = f y -> x = y.
Proof.
  induction l as [|a l IH]; simpl; intros Hnd Hx Hy E; [contradiction |].
  inversion Hnd as [|? ? Hnotin Hnd']; subst.
  destruct Hx as [-> | Hx], Hy as [-> | Hy]; auto.
  - exfalso. apply Hnotin. rewrite E. now apply in_map.
  - exfalso. apply Hnotin. rewrite <- E. now apply in_map.
Qed.

Lemma NoDup_map_filter {A B} (key : A -> B) (keep : A -> bool) (rows : list A) :
  NoDup (map key rows) -> NoDup (map key (filter keep rows)).
Proof.
  intro Hnd. induction rows as [|a rows IH]; simpl in *; [constructor |].
  inversion Hnd as [|? ? Hnotin Hnd']; subst.
  destruct (keep a); simpl; auto.
  constructor; auto.
  intro Hin. apply Hnotin. apply in_map_iff in Hin. destruct Hin as [x [E Hx]].
  apply filter_In in Hx. rewrite <- E. apply in_map. tauto.
Qed.

Lemma NoDup_map_snoc {A B} (f : A -> B) (l : list A) (x : A) :
  NoDup (map f l) -> ~ In (f x) (map f l) -> NoDup (map f (l ++ [x])).
Proof.
  intros Hnd Hnotin. rewrite map_app. simpl.
  apply NoDup_app; [exact Hnd | repeat constructor; intros [] | ].
  intros b Hb [<- | []]. contradiction.
Qed.

Lemma watchlist_by_key (uid mid : Z) (i : WatchlistItem.t) :
  watchlist_by uid mid i = true <-> watchlist_key i = (uid, mid).
Proof.
  unfold watchlist_by, watchlist_key. rewrite andb_true_iff, !Z.eqb_eq.
  split; [intros [-> ->]; reflexivity | intro E; inversion E; auto].
Qed.

Lemma review_by_key (uid mid : Z) (r : Review.t) :
  review_by uid mid r = true <-> review_key r = (uid, mid).
Proof.
  unfold review_by, review_key. rewrite andb_true_iff, !Z.eqb_eq.
  split; [intros [-> ->]; reflexivity | intro E; inversion E; auto].
Qed.

Lemma find_none_key {A} (key : A -> Z * Z) (p : A -> bool) (k : Z * Z) (l : list A) :
  (forall x, p x = true <-> key x = k) ->
  find p l = None -> ~ In k (map key l).
Proof.
  intros Hp Hnone Hin. apply in_map_iff in Hin. destruct Hin as [x [E Hx]].
  apply (find_none _ _ Hnone) in Hx. apply Hp in E. congruence.
Qed.

(** ** The watchlist *)

Lemma delete_watchlist_item_absent (st : Store) (uid mid : Z) (item : WatchlistItem.t) :
  unique_watchlist_pairs st ->
  find (watchlist_by uid mid) (watchlist_items st) = Some item ->
  on_watchlist (delete_watchlist_item st item) uid mid = false.
Proof.
  intros Huniq Hfind. unfold on_watchlist, delete_watchlist_item. simpl.
  destruct (find_some _ _ Hfind) as [Hin Hkey].
  apply not_true_is_false. intro Hex. apply existsb_exists in Hex.
  destruct Hex as [j [Hj Hjkey]]. apply filter_In in Hj. destruct Hj as [Hjin Hid].
  apply watchlist_by_key in Hkey, Hjkey.
  assert (j = item) by (eapply NoDup_map_injective; eauto; congruence).
  subst j. rewrite Z.eqb_refl in Hid. discriminate.
Qed.

Lemma insert_watchlist_item_fresh (st : Store) (uid mid : Z) :
  find (watchlist_by uid mid) (watchlist_items st) = None ->
  insert_watchlist_item st uid mid =
    Ok (mkStore (users st) (movies st)
          (watchlist_items st ++
             [WatchlistItem.mk (next_id (map WatchlistItem.id (watchlist_items st))) uid mid])%list
          (reviews st)).
Proof.
  intro H. unfold insert_watchlist_item. rewrite existsb_find, H. reflexivity.
Qed.

(** One toggle: membership flips, everything else stays. *)
Lemma toggle_watchlist_step (w : World) (rq : Request) (user : User.t)
    (movie_id : Z) (movie : Movie.t) :
  unique_watchlist_pairs (db w) ->
  current_user w = Some user ->
  get_movie (db w) movie_id = Some movie ->
  let present := on_watchlist (db w) (User.id user) movie_id in
  let w' := fst (toggle_watchlist movie_id w rq) in
  on_watchlist (db w') (User.id user) movie_id = negb present /\
  unique_watchlist_pairs (db w') /\
  users (db w') = users (db w) /\
  movies (db w') = movies (db w) /\
  reviews (db w') = reviews (db w) /\
  session w' = session w /\
  exists to,
    snd (toggle_watchlist movie_id w rq) =
      Ok (respond
            [if present
             then (quoted (Movie.title movie) ++ " removed from your watchlist.", "info")
             else (quoted (Movie.title movie) ++ " added to your watchlist!", "success")]
            (redirect to)).
Proof.
  intros Huniq Huser Hmovie present w'.
  assert (Hp : present =
            match find (watchlist_by (User.id user) movie_id) (watchlist_items (db w)) with
            | Some _ => true
            | None => false
            end) by apply existsb_find.
  subst w'. unfold toggle_watchlist.
  rewrite (login_required_user _ _ _ _ Huser), Hmovie.
  destruct (find (watchlist_by (User.id user) movie_id) (watchlist_items (db w)))
    as [item|] eqn:Hfind; rewrite Hp.
  - simpl. repeat split; auto.
    + now apply delete_watchlist_item_absent.
    + unfold unique_watchlist_pairs. simpl. now apply NoDup_map_filter.
    + eexists; reflexivity.
  - rewrite (insert_watchlist_item_fresh _ _ _ Hfind). simpl. repeat split; auto.
    + unfold on_watchlist. simpl. rewrite existsb_app. simpl.
      unfold watchlist_by at 2. simpl. rewrite !Z.eqb_refl. simpl. apply orb_true_r.
    + unfold unique_watchlist_pairs. simpl. apply NoDup_map_snoc; [exact Huniq |].
      eapply find_none_key; [apply watchlist_by_key | exact Hfind].
    + eexists; reflexivity.
Qed.

Lemma current_user_stable (w w' : World) :
  users (db w') = users (db w) -> session w' = session w ->
  current_user w' = current_user w.
Proof.
  intros Hu Hs. unfold current_user, get_user. now rewrite Hu, Hs.
Qed.

Lemma get_movie_stable (st st' : Store) (movie_id : Z) :
  movies st' = movies st -> get_movie st' movie_id = get_movie st movie_id.
Proof.
  intro H. unfold get_movie. now rewrite H.
Qed.

(** C2: for a logged-in user and an existing movie, in a store that meets
    the unique constraint of the watchlist, two toggles in a row bring the
    membership of the pair back to what it was. The first toggle flashes
    "removed" and leaves the pair off the watchlist when it was on it, and
    flashes "added" and puts it on otherwise; the second toggle does the
    opposite. *)
Theorem toggle_watchlist_twice (w : World) (rq1 rq2 : Request) (user : User.t)
    (movie_id : Z) (movie : Movie.t) :
  unique_watchlist_pairs (db w) ->
  current_user w = Some user ->
  get_movie (db w) movie_id = Some movie ->
  let removed := (quoted (Movie.title movie) ++ " removed from your watchlist.", "info") in
  let added := (quoted (Movie.title movie) ++ " added to your watchlist!", "success") in
  let present := on_watchlist (db w) (User.id user) movie_id in
  let w1 := fst (toggle_watchlist movie_id w rq1) in
  let w2 := fst (toggle_watchlist movie_id w1 rq2) in
  on_watchlist (db w1) (User.id user) movie_id = negb present /\
  on_watchlist (db w2) (User.id user) movie_id = present /\
  (exists to, snd (toggle_watchlist movie_id w rq1) =
     Ok (respond [if present then removed else added] (redirect to))) /\
  (exists to, snd (toggle_watchlist movie_id w1 rq2) =
     Ok (respond [if present then added else removed] (redirect to))).
Proof.
  intros Huniq Huser Hmovie removed added present w1 w2.
  destruct (toggle_watchlist_step w rq1 user movie_id movie Huniq Huser Hmovie)
    as (Hflip1 & Huniq1 & Husers1 & Hmovies1 & _ & Hsess1 & Hresp1).
  fold w1 in Hflip1, Huniq1, Husers1, Hmovies1, Hsess1. fold present in Hflip1, Hresp1.
  assert (Huser1 : current_user w1 = Some user)
    by (rewrite <- Huser; now apply current_user_stable).
  assert (Hmovie1 : get_movie (db w1) movie_id = Some movie)
    by (rewrite <- Hmovie; now apply get_movie_stable).
  destruct (toggle_watchlist_step w1 rq2 user movie_id movie Huniq1 Huser1 Hmovie1)
    as (Hflip2 & _ & _ & _ & _ & _ & Hresp2).
  fold w2 in Hflip2. rewrite Hflip1 in Hflip2, Hresp2.
  repeat split.
  - exact Hflip1.
  - rewrite Hflip2. apply negb_involutive.
  - exact Hresp1.
  - destruct Hresp2 as [to Hto]. exists to. rewrite Hto.
    subst removed added. now destruct present.
Qed.

Lemma toggle_watchlist_twice_witness :
  let rq := example_request POST [] [] 1700000600 in
  let w1 := fst (toggle_watchlist 2 example_world rq) in
  let w2 := fst (toggle_watchlist 2 w1 rq) in
  on_watchlist (db example_world) 1 2 = false /\
  on_watchlist (db w1) 1 2 = true /\
  on_watchlist (db w2) 1 2 = false.
Proof.
  intros rq w1 w2.
  pose (admin := User.mk 1 "admin" "admin@flix.com" (example_hash "password123")).
  pose (dune := Movie.mk 2 "Dune: Part One"
     "Paul Atreides leads nomadic tribes in a battle to control the desert planet Arrakis and its valuable spice."
     "https://th.bing.com/th/id/OIP.H8940g-GeXdBWSXjUjh2swHaK8?w=205&h=303&c=7&r=0&o=7&cb=ucfimg2&dpr=1.3&pid=1.7&rm=3&ucfimg=1"
     2021 "Sci-Fi" "2h 35m").
  assert (Huniq : unique_watchlist_pairs (db example_world)) by constructor.
  destruct (toggle_watchlist_twice example_world rq rq admin 2 dune Huniq eq_refl eq_refl)
    as (H1 & H2 & _).
  split; [reflexivity | split; [exact H1 | exact H2]].
Defined.

(** ** Reviews *)

Lemma filter_none {A} (p : A -> bool) (l : list A) :
  (forall x, In x l -> p x = false) -> filter p l = [].
Proof.
  induction l as [|a l IH]; simpl; intro H; [reflexivity |].
  rewrite (H a (or_introl eq_refl)). apply IH. intros x Hx. apply H. now right.
Qed.

Lemma filter_unique_key {A} (key : A -> Z * Z) (p : A -> bool) (k : Z * Z)
    (l : list A) (x : A) :
  (forall y, p y = true <-> key y = k) ->
  NoDup (map key l) -> find p l = Some x -> filter p l = [x].
Proof.
  intros Hp. induction l as [|a l IH]; simpl; intros Hnd Hfind; [discriminate |].
  inversion Hnd as [|? ? Hnotin Hnd']; subst.
  destruct (p a) eqn:Hpa.
  - inversion Hfind; subst. f_equal. apply filter_none. intros y Hy.
    apply not_true_is_false. intro Hpy. apply Hnotin.
    apply Hp in Hpa, Hpy. rewrite Hpa, <- Hpy. now apply in_map.
  - now apply IH.
Qed.

Lemma filter_map_commute {A} (p : A -> bool) (f : A -> A) (l : list A) :
  (forall x, p (f x) = p x) -> filter p (map f l) = map f (filter p l).
Proof.
  intro H. induction l as [|a l IH]; simpl; [reflexivity |].
  rewrite H. destruct (p a); simpl; now rewrite IH.
Qed.

Lemma insert_review_fresh (st : Store) (now uid mid rating : Z) (text : string) :
  find (review_by uid mid) (reviews st) = None ->
  insert_review st now uid mid rating text =
    Ok (mkStore (users st) (movies st) (watchlist_items st)
          (reviews st ++
             [Review.mk (next_id (map Review.id (reviews st))) text rating now uid mid])%list).
Proof.
  intro H. unfold insert_review. rewrite existsb_find, H. reflexivity.
Qed.

(** One accepted submission: afterwards the pair has exactly one row, and it
    carries the submitted rating and text and the time of the request. *)
Lemma submit_review_step (w : World) (rq : Request) (user : User.t)
    (movie_id : Z) (movie : Movie.t) (rating text : string) (n : Z) :
  unique_review_pairs (db w) ->
  current_user w = Some user ->
  get_movie (db w) movie_id = Some movie ->
  get "rating" (form rq) = Some rating ->
  get "text" (form rq) = Some text ->
  py_int rating = Ok n ->
  (1 <= n <= 5)%Z ->
  text <> EmptyString ->
  let w' := fst (submit_review movie_id w rq) in
  (exists row,
     filter (review_by (User.id user) movie_id) (reviews (db w')) = [row] /\
     Review.rating row = n /\
     Review.text row = text /\
     Review.timestamp row = current_timestamp rq) /\
  unique_review_pairs (db w') /\
  users (db w') = users (db w) /\
  movies (db w') = movies (db w) /\
  session w' = session w.
Proof.
  intros Huniq Huser Hmovie Hrating Htext Hint Hrange Hnonempty w'.
  subst w'. unfold submit_review.
  rewrite (login_required_user _ _ _ _ Huser), Hmovie, Hrating, Htext.
  rewrite (py_int_truthy _ _ Hint), (proj2 (truthy_nonempty text) Hnonempty), Hint.
  simpl.
  replace ((1 <=? n)%Z && (n <=? 5)%Z) with true
    by (symmetry; apply andb_true_iff; split; apply Z.leb_le; lia).
  simpl.
  destruct (find (review_by (User.id user) movie_id) (reviews (db w)))
    as [existing|] eqn:Hfind.
  - simpl. repeat split; auto.
    + pose proof (filter_unique_key review_key _ _ _ _
                    (review_by_key (User.id user) movie_id) Huniq Hfind) as Hone.
      eexists. rewrite filter_map_commute.
      * rewrite Hone. simpl. rewrite Z.eqb_refl. repeat split; reflexivity.
      * intro r. destruct (Review.id r =? Review.id existing)%Z; reflexivity.
    + unfold unique_review_pairs. simpl. rewrite map_map.
      erewrite map_ext; [exact Huniq |].
      intro r. destruct (Review.id r =? Review.id existing)%Z; reflexivity.
  - rewrite (insert_review_fresh _ _ _ _ _ _ Hfind). simpl. repeat split; auto.
    + eexists. rewrite filter_app, (filter_none _ _ (find_none _ _ Hfind)). simpl.
      unfold review_by at 1. simpl. rewrite !Z.eqb_refl. simpl.
      repeat split; reflexivity.
    + unfold unique_review_pairs. simpl. apply NoDup_map_snoc; [exact Huniq |].
      eapply find_none_key; [apply review_by_key | exact Hfind].
Qed.

(** C1: for a logged-in user and an existing movie, in a store that meets the
    unique constraint of the reviews, two submissions in a row, each with a
    rating that reads as an integer from 1 to 5 and a non-empty text, leave
    exactly one review row for the pair, and that row has the rating, the text
    and the timestamp of the second submission. *)
Theorem submit_review_twice (w : World) (rq1 rq2 : Request) (user : User.t)
    (movie_id : Z) (movie : Movie.t) (rating1 text1 rating2 text2 : string) (n1 n2 : Z) :
  unique_review_pairs (db w) ->
  current_user w = Some user ->
  get_movie (db w) movie_id = Some movie ->
  get "rating" (form rq1) = Some rating1 -> get "text" (form rq1) = Some text1 ->
  py_int rating1 = Ok n1 -> (1 <= n1 <= 5)%Z -> text1 <> EmptyString ->
  get "rating" (form rq2) = Some rating2 -> get "text" (form rq2) = Some text2 ->
  py_int rating2 = Ok n2 -> (1 <= n2 <= 5)%Z -> text2 <> EmptyString ->
  let w1 := fst (submit_review movie_id w rq1) in
  let w2 := fst (submit_review movie_id w1 rq2) in
  exists row,
    filter (review_by (User.id user) movie_id) (reviews (db w2)) = [row] /\
    Review.rating row = n2 /\
    Review.text row = text2 /\
    Review.timestamp row = current_timestamp rq2.
Proof.
  intros Huniq Huser Hmovie Hr1 Ht1 Hi1 Hn1 He1 Hr2 Ht2 Hi2 Hn2 He2 w1 w2.
  destruct (submit_review_step w rq1 user movie_id movie rating1 text1 n1
              Huniq Huser Hmovie Hr1 Ht1 Hi1 Hn1 He1)
    as (_ & Huniq1 & Husers1 & Hmovies1 & Hsess1).
  fold w1 in Huniq1, Husers1, Hmovies1, Hsess1.
  assert (Huser1 : current_user w1 = Some user)
    by (rewrite <- Huser; now apply current_user_stable).
  assert (Hmovie1 : get_movie (db w1) movie_id = Some movie)
    by (rewrite <- Hmovie; now apply get_movie_stable).
  exact (proj1 (submit_review_step w1 rq2 user movie_id movie rating2 text2 n2
                  Huniq1 Huser1 Hmovie1 Hr2 Ht2 Hi2 Hn2 He2)).
Qed.

Lemma submit_review_twice_witness :
  let rq1 := example_request POST [] [("rating", "3"); ("text", "Fine.")] 1700000700 in
  let rq2 := example_request POST [] [("rating", " 4 "); ("text", "Better.")] 1700000800 in
  let w2 := fst (submit_review 2 (fst (submit_review 2 example_world rq1)) rq2) in
  exists row,
    filter (review_by 1 2) (reviews (db w2)) = [row] /\
    Review.rating row = 4%Z /\
    Review.text row = "Better." /\
    Review.timestamp row = 1700000800%Z.
Proof.
  intros rq1 rq2 w2.
  pose (admin := User.mk 1 "admin" "admin@flix.com" (example_hash "password123")).
  pose (dune := Movie.mk 2 "Dune: Part One"
     "Paul Atreides leads nomadic tribes in a battle to control the desert planet Arrakis and its valuable spice."
     "https://th.bing.com/th/id/OIP.H8940g-GeXdBWSXjUjh2swHaK8?w=205&h=303&c=7&r=0&o=7&cb=ucfimg2&dpr=1.3&pid=1.7&rm=3&ucfimg=1"
     2021 "Sci-Fi" "2h 35m").
  assert (Huniq : unique_review_pairs (db example_world)).
  { unfold unique_review_pairs. vm_compute. repeat constructor. intros []. }
  apply (submit_review_twice example_world rq1 rq2 admin 2 dune "3" "Fine." " 4 " "Better." 3 4
           Huniq eq_refl eq_refl eq_refl eq_refl eq_refl);
    try reflexivity; try lia; discriminate.
Defined.

(** ** Search *)

Lemma insert_by_perm {A} (le : A -> A -> bool) (x : A) (l : list A) :
  Permutation (insert_by le x l) (x :: l).
Proof.
  induction l as [|y l IH]; simpl; [reflexivity |].
  destruct (le x y); [reflexivity |].
  rewrite IH. apply perm_swap.
Qed.

Lemma sort_by_perm {A} (le : A -> A -> bool) (l : list A) :
  Permutation (sort_by le l) l.
Proof.
  induction l as [|x l IH]; simpl; [reflexivity |].
  rewrite insert_by_perm. now constructor.
Qed.

Lemma firstn_skipn_add {A} (a b : nat) (l : list A) :
  (firstn a l ++ firstn b (skipn a l))%list = firstn (a + b) l.
Proof.
  revert l. induction a as [|a IH]; intro l; simpl; [reflexivity |].
  destruct l as [|x l]; simpl.
  - now rewrite firstn_nil.
  - now rewrite IH.
Qed.

(** The first [n] chunks of [c] elements make up the first [n * c] elements. *)
Lemma concat_chunks {A} (c n : nat) (l : list A) :
  List.concat (map (fun k => firstn c (skipn (k * c) l)) (seq 0 n)) = firstn (n * c) l.
Proof.
  induction n as [|n IH]; [reflexivity |].
  rewrite seq_S, map_app, concat_app, IH. simpl.
  rewrite app_nil_r, firstn_skipn_add. f_equal. lia.
Qed.

Lemma search_movies_unfiltered (st : Store) (p : nat) :
  search_movies st EmptyString EmptyString (Z.of_nat (S p)) =
    firstn 12 (skipn (p * 12)
      (sort_by (fun a b => (Movie.year b <=? Movie.year a)%Z) (movies st))).
Proof.
  unfold search_movies, per_page. simpl truthy. cbv iota.
  replace (Z.to_nat ((Z.of_nat (S p) - 1) * 12)) with (p * 12)%nat by lia.
  reflexivity.
Qed.

(** What [api_movies] answers without filters, for a page that parses. *)
Lemma api_movies_unfiltered (w : World) (rq : Request) (s : string) (page : Z) :
  get "q" (args rq) = None ->
  get "genre" (args rq) = None ->
  get "page" (args rq) = Some s ->
  py_int s = Ok page ->
  api_movies w rq =
    (w, Ok (respond [] (jsonify_moviecard
                          (search_movies (db w) EmptyString EmptyString page)))).
Proof.
  intros Hq Hg Hp Hint. unfold api_movies, get_str. rewrite Hq, Hg, Hp, Hint. reflexivity.
Qed.

(** C3: without query and genre, the pages 1, 2, ..., n of [search_movies]
    (12 rows each, from offset [(page - 1) * 12] of the movies by descending
    year), put one after the other, are the whole movie table in that order
    as soon as [12 * n] reaches the number of movies: the concatenation is a
    permutation of the table, so every row is there exactly as often as in
    the table, and with distinct primary keys no movie comes twice. *)
Theorem search_movies_pages (st : Store) (n : nat) :
  (List.length (movies st) <= 12 * n)%nat ->
  let pages :=
    map (fun page => search_movies st EmptyString EmptyString (Z.of_nat page)) (seq 1 n) in
  List.concat pages = sort_by (fun a b => (Movie.year b <=? Movie.year a)%Z) (movies st) /\
  Permutation (List.concat pages) (movies st) /\
  (NoDup (map Movie.id (movies st)) -> NoDup (map Movie.id (List.concat pages))).
Proof.
  intros Hlen pages.
  assert (E : List.concat pages =
              sort_by (fun a b => (Movie.year b <=? Movie.year a)%Z) (movies st)).
  { subst pages. rewrite <- seq_shift, map_map.
    erewrite map_ext by (intro p; apply search_movies_unfiltered).
    rewrite (concat_chunks 12 n). apply firstn_all2.
    rewrite (Permutation_length (sort_by_perm _ (movies st))). lia. }
  assert (P : Permutation (List.concat pages) (movies st))
    by (rewrite E; apply sort_by_perm).
  repeat split; auto.
  intro Hnd. eapply Permutation_NoDup; [| exact Hnd].
  apply Permutation_map. now symmetry.
Qed.

Lemma search_movies_pages_witness :
  List.concat (map (fun page => search_movies example_store EmptyString EmptyString (Z.of_nat page))
            (seq 1 1)) =
    sort_by (fun a b => (Movie.year b <=? Movie.year a)%Z) (movies example_store) /\
  map Movie.id (search_movies example_store EmptyString EmptyString 1) =
    [2; 1; 10; 5; 6; 7; 4; 8; 9; 3]%Z.
Proof.
  split.
  - apply (search_movies_pages example_store 1). vm_compute. lia.
  - reflexivity.
Defined.

(** ** The constraints hold in every reachable world *)

Lemma consistent_ext (st st' : Store) :
  users st' = users st ->
  watchlist_items st' = watchlist_items st ->
  reviews st' = reviews st ->
  consistent st -> consistent st'.
Proof.
  intros Hu Hw Hr [C1 C2 C3 C4 C5].
  constructor;
    unfold unique_watchlist_pairs, unique_review_pairs, unique_usernames, unique_emails in *;
    now rewrite ?Hu, ?Hw, ?Hr.
Qed.

Lemma existsb_false_not_in {A B} (f : A -> B) (p : A -> bool) (b : B) (l : list A) :
  (forall x, f x = b -> p x = true) ->
  existsb p l = false -> ~ In b (map f l).
Proof.
  intros Hp Hex Hin. apply in_map_iff in Hin. destruct Hin as [x [E Hx]].
  assert (existsb p l = true) by (apply existsb_exists; exists x; auto).
  congruence.
Qed.

Ltac case_view :=
  repeat match goal with
         | |- context [match ?x with _ => _ end] => destruct x eqn:?
         end;
  simpl; auto.

Lemma toggle_watchlist_consistent (movie_id : Z) (w : World) (rq : Request) :
  consistent (db w) -> consistent (db (fst (toggle_watchlist movie_id w rq))).
Proof.
  intro C. unfold toggle_watchlist, login_required.
  destruct (current_user w) as [user|]; simpl; auto.
  destruct (get_movie (db w) movie_id) as [movie|]; simpl; auto.
  destruct (find _ _) as [item|] eqn:Hfind; simpl.
  - destruct C as [C1 C2 C3 C4 C5]. constructor; auto.
    unfold unique_watchlist_pairs. simpl. now apply NoDup_map_filter.
  - rewrite (insert_watchlist_item_fresh _ _ _ Hfind). simpl.
    destruct C as [C1 C2 C3 C4 C5]. constructor; auto.
    unfold unique_watchlist_pairs. simpl. apply NoDup_map_snoc; [exact C1 |].
    eapply find_none_key; [apply watchlist_by_key | exact Hfind].
Qed.

Lemma submit_review_consistent (movie_id : Z) (w : World) (rq : Request) :
  consistent (db w) -> consistent (db (fst (submit_review movie_id w rq))).
Proof.
  intro C. unfold submit_review, login_required.
  destruct (current_user w) as [user|]; simpl; auto.
  destruct (get_movie (db w) movie_id) as [movie|]; simpl; auto.
  destruct (get "rating" (form rq)) as [rating|]; simpl; auto.
  destruct (get "text" (form rq)) as [text|]; simpl; auto.
  destruct (negb (truthy rating) || negb (truthy text)) eqn:Hreq; simpl; auto.
  destruct (py_int rating) as [n|]; simpl; auto.
  destruct (negb ((1 <=? n)%Z && (n <=? 5)%Z)) eqn:Hrange; simpl; auto.
  assert (Hvalid : forall i now uid mid, valid_review (Review.mk i text n now uid mid)).
  { intros. split; simpl.
    - apply negb_false_iff, andb_true_iff in Hrange. lia.
    - apply orb_false_elim in Hreq. destruct Hreq as [_ Ht].
      apply negb_false_iff in Ht. now apply truthy_nonempty. }
  destruct C as [C1 C2 C3 C4 C5].
  destruct (find _ _) as [existing|] eqn:Hfind; simpl.
  - constructor; auto; simpl.
    + unfold unique_review_pairs. simpl. rewrite map_map.
      erewrite map_ext; [exact C2 |].
      intro r. destruct (Review.id r =? Review.id existing)%Z; reflexivity.
    + apply Forall_map. eapply Forall_impl; [| exact C5].
      intros r Hr. destruct (Review.id r =? Review.id existing)%Z; auto.
  - rewrite (insert_review_fresh _ _ _ _ _ _ Hfind). simpl.
    constructor; auto; simpl.
    + unfold unique_review_pairs. simpl. apply NoDup_map_snoc; [exact C2 |].
      eapply find_none_key; [apply review_by_key | exact Hfind].
    + apply Forall_app. split; auto.
Qed.

Lemma register_consistent (w : World) (rq : Request) :
  consistent (db w) -> consistent (db (fst (register w rq))).
Proof.
  intro C. unfold register.
  destruct (current_user w); simpl; auto.
  destruct (method rq); simpl; auto.
  destruct (_ <- getitem "username" (form rq) ;; _) as [[[name mail] password]|]; simpl; auto.
  destruct (find _ _); simpl; auto.
  unfold insert_user.
  destruct (existsb _ _) eqn:Hname; simpl; auto.
  destruct (existsb _ _) eqn:Hmail in |- *; simpl; auto.
  destruct C as [C1 C2 C3 C4 C5]. constructor; auto.
  - unfold unique_usernames. simpl. apply NoDup_map_snoc; [exact C3 |]. simpl.
    eapply existsb_false_not_in; [| exact Hname].
    intros x E. simpl. rewrite E. apply String.eqb_refl.
  - unfold unique_emails. simpl. apply NoDup_map_snoc; [exact C4 |]. simpl.
    eapply existsb_false_not_in; [| exact Hmail].
    intros x E. simpl. rewrite E. apply String.eqb_refl.
Qed.

Lemma login_db (w : World) (rq : Request) : db (fst (login w rq)) = db w.
Proof. unfold login. case_view. Qed.

Lemma add_movie_consistent (w : World) (rq : Request) :
  consistent (db w) -> consistent (db (fst (add_movie w rq))).
Proof.
  intro C. unfold add_movie, login_required.
  destruct (current_user w) as [user|]; simpl; auto.
  destruct (negb _); simpl; auto.
  destruct (method rq); simpl; auto.
  destruct (movie_form rq) as [[[[[[title genre] poster] year] duration] synopsis]|e];
    simpl; [| destruct e; auto].
  eapply consistent_ext; [.. | exact C]; reflexivity.
Qed.

Lemma edit_movie_consistent (movie_id : Z) (w : World) (rq : Request) :
  consistent (db w) -> consistent (db (fst (edit_movie movie_id w rq))).
Proof.
  intro C. unfold edit_movie, login_required.
  destruct (current_user w) as [user|]; simpl; auto.
  destruct (negb _); simpl; auto.
  destruct (get_movie (db w) movie_id) as [movie|]; simpl; auto.
  destruct (method rq); simpl; auto.
  destruct (movie_form rq) as [[[[[[title genre] poster] year] duration] synopsis]|e];
    simpl; [| destruct e; auto].
  eapply consistent_ext; [.. | exact C]; reflexivity.
Qed.

Lemma handle_consistent (r : Route) (w : World) (rq : Request) :
  consistent (db w) -> consistent (db (fst (handle r w rq))).
Proof.
  intro C. destruct r; simpl.
  - exact C.
  - exact C.
  - unfold movie_detail. destruct (get_movie (db w) movie_id); exact C.
  - now apply toggle_watchlist_consistent.
  - unfold watchlist, login_required. destruct (current_user w); exact C.
  - now apply submit_review_consistent.
  - now rewrite login_db.
  - now apply register_consistent.
  - unfold logout, login_required. destruct (current_user w); exact C.
  - now apply add_movie_consistent.
  - now apply edit_movie_consistent.
Qed.

Lemma seed_data_consistent (now : Z) (hash : string -> string) :
  consistent (seed_data now hash).
Proof.
  assert (E : reviews (seed_data now hash) =
              [Review.mk 1 seed_review_text 5 now 1 2]) by (vm_compute; reflexivity).
  constructor.
  - vm_compute. constructor.
  - vm_compute. constructor; [intros [] | constructor].
  - vm_compute. constructor; [intros [] | constructor].
  - vm_compute. constructor; [intros [] | constructor].
  - rewrite E. constructor; [| constructor].
    split; simpl; [lia | discriminate].
Qed.

Lemma create_all_consistent : consistent create_all.
Proof.
  constructor; vm_compute; constructor.
Qed.

Lemma reachable_consistent (w : World) : reachable w -> consistent (db w).
Proof.
  induction 1 as [now hash | | w r rq _ IH].
  - apply seed_data_consistent.
  - apply create_all_consistent.
  - now apply handle_consistent.
Qed.

(** C9: in every world that the application reaches, from the seeded or the
    empty database through any sequence of requests to any of its routes,
    every review row has a rating from 1 to 5 and a text that is not empty. *)
Theorem reviews_always_valid (w : World) :
  reachable w ->
  Forall (fun r => (1 <= Review.rating r <= 5)%Z /\ Review.text r <> EmptyString)
         (reviews (db w)).
Proof.
  intro H. exact (consistent_ratings _ (reachable_consistent w H)).
Qed.

Lemma reviews_always_valid_witness :
  reviews (db example_run) = [Review.mk 1 "Second thoughts." 4 1700001000 1 2] /\
  Forall (fun r => (1 <= Review.rating r <= 5)%Z /\ Review.text r <> EmptyString)
         (reviews (db example_run)).
Proof.
  split; [reflexivity |].
  apply (reviews_always_valid example_run).
  unfold example_run. apply reach_request, reach_request, reach_seeded.
Defined.

(** ** The average rating

    [SFdiv] and [binary_normalize] on the integers that [sql_avg] meets:
    enough of their behaviour to know that the average of ratings from 1 to 5
    is a finite, non-zero double, so that [movie_detail] rounds it. *)

Local Open Scope Z_scope.


















Local Open Scope string_scope.



(** * Further properties of the routes *)

(** ** Guards *)

(** X1: without a logged-in user each of the six routes behind
    [@login_required] answers with the login flash and the redirect to the
    login page, and changes neither the database nor the session. *)
Theorem anonymous_is_refused (r : Route) (w : World) (rq : Request) :
  current_user w = None ->
  protected r = true ->
  handle r w rq = (w, Ok unauthorized).
Proof.
  intros Hanon Hprot.
  destruct r; try discriminate; simpl;
    now apply login_required_anonymous.
Qed.

Lemma anonymous_is_refused_witness :
  let rq := example_request POST []
              [("title", "Heat"); ("genre", "Action"); ("poster", "p"); ("year", "1995");
               ("duration", "2h 50m"); ("synopsis", "s")] 1700002000 in
  handle route_add_movie anonymous_world rq = (anonymous_world, Ok unauthorized) /\
  handle (route_submit_review 2) anonymous_world rq = (anonymous_world, Ok unauthorized).
Proof.
  intro rq. split.
  - apply (anonymous_is_refused route_add_movie); reflexivity.
  - apply (anonymous_is_refused (route_submit_review 2)); reflexivity.
Defined.

(** X2: a logged-in user who is not called [admin] cannot edit: [edit_movie]
    answers with its access-denied flash and a redirect to the page of the
    movie, whether or not that movie exists, and the world stays as it is. *)
Theorem edit_movie_not_admin (movie_id : Z) (w : World) (rq : Request) (user : User.t) :
  current_user w = Some user ->
  User.username user <> "admin" ->
  edit_movie movie_id w rq = (w, Ok (edit_denied movie_id)).
Proof.
  intros Huser Hname. unfold edit_movie.
  rewrite (login_required_user _ _ _ _ Huser).
  apply String.eqb_neq in Hname. now rewrite Hname.
Qed.

Lemma edit_movie_not_admin_witness :
  let rq := example_request POST []
              [("title", "Dune"); ("genre", "Sci-Fi"); ("poster", "p"); ("year", "1984");
               ("duration", "2h 17m"); ("synopsis", "s")] 1700002100 in
  edit_movie 2 visitor_world rq = (visitor_world, Ok (edit_denied 2)) /\
  edit_movie 99 visitor_world rq = (visitor_world, Ok (edit_denied 99)).
Proof.
  intro rq. split.
  - apply (edit_movie_not_admin 2 visitor_world rq alice); [reflexivity | discriminate].
  - apply (edit_movie_not_admin 99 visitor_world rq alice); [reflexivity | discriminate].
Defined.



(** ** Which route writes what *)

Lemma toggle_watchlist_frame (movie_id : Z) (w : World) (rq : Request) :
  let w' := fst (toggle_watchlist movie_id w rq) in
  users (db w') = users (db w) /\ movies (db w') = movies (db w) /\
  reviews (db w') = reviews (db w) /\ session w' = session w.
Proof.
  unfold toggle_watchlist, login_required.
  destruct (current_user w); simpl; auto.
  destruct (get_movie (db w) movie_id); simpl; auto.
  destruct (find _ _) eqn:Hfind; simpl; auto.
  rewrite (insert_watchlist_item_fresh _ _ _ Hfind). simpl. auto.
Qed.

Lemma submit_review_frame (movie_id : Z) (w : World) (rq : Request) :
  let w' := fst (submit_review movie_id w rq) in
  users (db w') = users (db w) /\ movies (db w') = movies (db w) /\
  watchlist_items (db w') = watchlist_items (db w) /\ session w' = session w.
Proof.
  unfold submit_review, login_required.
  destruct (current_user w); simpl; auto.
  destruct (get_movie (db w) movie_id); simpl; auto.
  destruct (get "rating" (form rq)); simpl; auto.
  destruct (get "text" (form rq)); simpl; auto.
  destruct (negb _ || negb _); simpl; auto.
  destruct (py_int _); simpl; auto.
  destruct (negb _); simpl; auto.
  destruct (find _ _) eqn:Hfind; simpl; auto.
  rewrite (insert_review_fresh _ _ _ _ _ _ Hfind). simpl. auto.
Qed.

Lemma register_frame (w : World) (rq : Request) :
  let w' := fst (register w rq) in
  movies (db w') = movies (db w) /\
  watchlist_items (db w') = watchlist_items (db w) /\
  reviews (db w') = reviews (db w).
Proof.
  unfold register.
  destruct (current_user w); simpl; auto.
  destruct (method rq); simpl; auto.
  destruct (_ <- getitem "username" (form rq) ;; _) as [[[name mail] password]|]; simpl; auto.
  destruct (find _ _); simpl; auto.
  unfold insert_user.
  destruct (existsb _ _); simpl; auto.
  destruct (existsb _ _); simpl; auto.
Qed.

Lemma add_movie_frame (w : World) (rq : Request) :
  let w' := fst (add_movie w rq) in
  users (db w') = users (db w) /\
  watchlist_items (db w') = watchlist_items (db w) /\
  reviews (db w') = reviews (db w) /\ session w' = session w.
Proof.
  unfold add_movie, login_required.
  destruct (current_user w); simpl; auto.
  destruct (negb _); simpl; auto.
  destruct (method rq); simpl; auto.
  destruct (movie_form rq) as [[[[[[title genre] poster] year] duration] synopsis]|e];
    simpl; auto.
  destruct e; simpl; auto.
Qed.

Lemma edit_movie_frame (movie_id : Z) (w : World) (rq : Request) :
  let w' := fst (edit_movie movie_id w rq) in
  users (db w') = users (db w) /\
  watchlist_items (db w') = watchlist_items (db w) /\
  reviews (db w') = reviews (db w) /\ session w' = session w.
Proof.
  unfold edit_movie, login_required.
  destruct (current_user w); simpl; auto.
  destruct (negb _); simpl; auto.
  destruct (get_movie (db w) movie_id); simpl; auto.
  destruct (method rq); simpl; auto.
  destruct (movie_form rq) as [[[[[[title genre] poster] year] duration] synopsis]|e];
    simpl; auto.
  destruct e; simpl; auto.
Qed.

Lemma logout_db (w : World) (rq : Request) : db (fst (logout w rq)) = db w.
Proof.
  unfold logout, login_required. destruct (current_user w); reflexivity.
Qed.

Lemma read_only (r : Route) (w : World) (rq : Request) :
  match r with
  | route_index | route_api_movies | route_movie_detail _ | route_watchlist => True
  | _ => False
  end ->
  fst (handle r w rq) = w.
Proof.
  destruct r; simpl; try contradiction; intros _.
  - reflexivity.
  - reflexivity.
  - unfold movie_detail. now destruct (get_movie (db w) movie_id).
  - unfold watchlist, login_required. now destruct (current_user w).
Qed.

(** X4: each table has its writers. Whatever the request, the user table is
    changed by [register] only, the movie table by [add_movie] and
    [edit_movie] only, the watchlist by [toggle_watchlist] only, the reviews
    by [submit_review] only, and the session by [login], [register] and
    [logout] only; [index], [api_movies], [movie_detail] and [watchlist]
    change nothing at all. *)
Theorem tables_have_their_writers (r : Route) (w : World) (rq : Request) :
  let w' := fst (handle r w rq) in
  (r <> route_register -> users (db w') = users (db w)) /\
  (r <> route_add_movie -> (forall k, r <> route_edit_movie k) ->
     movies (db w') = movies (db w)) /\
  ((forall k, r <> route_toggle_watchlist k) ->
     watchlist_items (db w') = watchlist_items (db w)) /\
  ((forall k, r <> route_submit_review k) -> reviews (db w') = reviews (db w)) /\
  (r <> route_login -> r <> route_register -> r <> route_logout ->
     session w' = session w).
Proof.
  intro w'. subst w'.
  destruct r as [| |i|i| |i| | | | |i];
    try (match goal with
         | |- context [handle ?r w rq] => rewrite (read_only r w rq I)
         end; repeat split; reflexivity);
    simpl.
  - destruct (toggle_watchlist_frame i w rq) as (Hu & Hm & Hr & Hs).
    repeat split; auto. intro H. now destruct (H i).
  - destruct (submit_review_frame i w rq) as (Hu & Hm & Hw & Hs).
    repeat split; auto. intro H. now destruct (H i).
  - rewrite login_db. repeat split; auto. intro H. now destruct H.
  - destruct (register_frame w rq) as (Hm & Hw & Hr).
    repeat split; auto; intros; congruence.
  - rewrite logout_db. repeat split; auto. intros _ _ H. now destruct H.
  - destruct (add_movie_frame w rq) as (Hu & Hw & Hr & Hs).
    repeat split; auto. intro H. now destruct H.
  - destruct (edit_movie_frame i w rq) as (Hu & Hw & Hr & Hs).
    repeat split; auto. intros _ H. now destruct (H i).
Qed.

Lemma tables_have_their_writers_witness :
  let rq := example_request POST [] [("rating", "2"); ("text", "Long.")] 1700002300 in
  let w' := fst (handle (route_submit_review 1) example_world rq) in
  users (db w') = users (db example_world) /\
  movies (db w') = movies (db example_world) /\
  watchlist_items (db w') = watchlist_items (db example_world) /\
  List.length (reviews (db w')) = 2%nat /\
  session w' = session example_world.
Proof.
  intros rq w'.
  destruct (tables_have_their_writers (route_submit_review 1) example_world rq)
    as (Hu & Hm & Hw & _ & Hs).
  split; [apply Hu; discriminate |].
  split; [apply Hm; [discriminate | intros k; discriminate] |].
  split; [apply Hw; intros k; discriminate |].
  split; [reflexivity | apply Hs; discriminate].
Defined.

(** ** Keys in every reachable world *)

Lemma next_id_above (ids : list Z) (x : Z) : In x ids -> (x < next_id ids)%Z.
Proof.
  unfold next_id. induction ids as [|y ids IH]; simpl; [contradiction |].
  intros [-> | Hin]; [lia |]. specialize (IH Hin). lia.
Qed.

Lemma next_id_fresh (ids : list Z) : ~ In (next_id ids) ids.
Proof.
  intro Hin. apply next_id_above in Hin. lia.
Qed.

Lemma current_user_stored (w : World) (user : User.t) :
  current_user w = Some user ->
  In user (users (db w)) /\ session w = Some (User.id user).
Proof.
  unfold current_user, get_user. destruct (session w) as [key|]; [| discriminate].
  intro H. apply find_some in H. destruct H as [Hin Hkey].
  apply Z.eqb_eq in Hkey. subst key. now split.
Qed.

Lemma get_movie_stored (st : Store) (movie_id : Z) (movie : Movie.t) :
  get_movie st movie_id = Some movie ->
  In movie (movies st) /\ Movie.id movie = movie_id.
Proof.
  unfold get_movie. intro H. apply find_some in H. destruct H as [Hin Hkey].
  apply Z.eqb_eq in Hkey. now split.
Qed.

Lemma toggle_watchlist_integral (movie_id : Z) (w : World) (rq : Request) :
  integral w -> integral (fst (toggle_watchlist movie_id w rq)).
Proof.
  intros H. pose proof H as [[P1 P2 P3 P4] [F1 F2] S]. unfold toggle_watchlist, login_required.
  destruct (current_user w) as [user|] eqn:Huser; simpl; [| exact H].
  destruct (get_movie (db w) movie_id) as [movie|] eqn:Hmovie; simpl;
    [| exact H].
  destruct (current_user_stored _ _ Huser) as [Hin _].
  destruct (get_movie_stored _ _ _ Hmovie) as [Hmin Hmid].
  destruct (find _ _) as [item|] eqn:Hfind; simpl.
  - repeat constructor; simpl; auto.
    + now apply NoDup_map_filter.
    + apply Forall_forall. intros i Hi. apply filter_In in Hi.
      rewrite Forall_forall in F1. now apply F1.
  - rewrite (insert_watchlist_item_fresh _ _ _ Hfind). simpl.
    repeat constructor; simpl; auto.
    + apply NoDup_map_snoc; [exact P3 | apply next_id_fresh].
    + apply Forall_app. split; [exact F1 |].
      constructor; [| constructor]. simpl. split.
      * now apply in_map.
      * rewrite <- Hmid. now apply in_map.
Qed.

Lemma submit_review_integral (movie_id : Z) (w : World) (rq : Request) :
  integral w -> integral (fst (submit_review movie_id w rq)).
Proof.
  intros H. pose proof H as [[P1 P2 P3 P4] [F1 F2] S]. unfold submit_review, login_required.
  destruct (current_user w) as [user|] eqn:Huser; simpl; [| exact H].
  destruct (get_movie (db w) movie_id) as [movie|] eqn:Hmovie; simpl;
    [| exact H].
  destruct (current_user_stored _ _ Huser) as [Hin _].
  destruct (get_movie_stored _ _ _ Hmovie) as [Hmin Hmid].
  destruct (get "rating" (form rq)); simpl; [| exact H].
  destruct (get "text" (form rq)); simpl; [| exact H].
  destruct (negb _ || negb _); simpl; [exact H |].
  destruct (py_int _) as [n|]; simpl; [| exact H].
  destruct (negb _); simpl; [exact H |].
  destruct (find _ _) as [existing|] eqn:Hfind; simpl.
  - repeat constructor; simpl; auto.
    + rewrite map_map. erewrite map_ext; [exact P4 |].
      intro r. destruct (Review.id r =? Review.id existing)%Z; reflexivity.
    + apply Forall_map. eapply Forall_impl; [| exact F2].
      intros r Hr. destruct (Review.id r =? Review.id existing)%Z; auto.
  - rewrite (insert_review_fresh _ _ _ _ _ _ Hfind). simpl.
    repeat constructor; simpl; auto.
    + apply NoDup_map_snoc; [exact P4 | apply next_id_fresh].
    + apply Forall_app. split; [exact F2 |].
      constructor; [| constructor]. simpl. split.
      * now apply in_map.
      * rewrite <- Hmid. now apply in_map.
Qed.

Lemma foreign_keys_grow (st st' : Store) :
  incl (map User.id (users st)) (map User.id (users st')) ->
  incl (map Movie.id (movies st)) (map Movie.id (movies st')) ->
  watchlist_items st' = watchlist_items st ->
  reviews st' = reviews st ->
  foreign_keys st -> foreign_keys st'.
Proof.
  intros Hu Hm Hw Hr [F1 F2]. constructor.
  - rewrite Hw. eapply Forall_impl; [| exact F1]. intros i [A B]. split; auto.
  - rewrite Hr. eapply Forall_impl; [| exact F2]. intros r [A B]. split; auto.
Qed.

Lemma register_integral (w : World) (rq : Request) :
  integral w -> integral (fst (register w rq)).
Proof.
  intros H. pose proof H as [[P1 P2 P3 P4] F S]. unfold register.
  destruct (current_user w); simpl; [exact H |].
  destruct (method rq); simpl; [exact H |].
  destruct (_ <- getitem "username" (form rq) ;; _) as [[[name mail] password]|]; simpl;
    [| exact H].
  destruct (find _ _); simpl; [exact H |].
  unfold insert_user.
  destruct (existsb _ _); simpl; [exact H |].
  destruct (existsb _ _); simpl; [exact H |].
  constructor; simpl.
  - constructor; simpl; auto.
    apply NoDup_map_snoc; [exact P1 | apply next_id_fresh].
  - eapply foreign_keys_grow; [| | | | exact F]; simpl; try reflexivity.
    + rewrite map_app. apply incl_appl, incl_refl.
    + apply incl_refl.
  - unfold session_valid. simpl. rewrite map_app. apply in_or_app. right. now left.
Qed.

Lemma login_integral (w : World) (rq : Request) :
  integral w -> integral (fst (login w rq)).
Proof.
  intros H. pose proof H as [P F S]. unfold login.
  destruct (current_user w); simpl; [exact H |].
  destruct (method rq); simpl; [exact H |].
  destruct (_ <- getitem "identity" (form rq) ;; _) as [[ident password]|]; simpl;
    [| exact H].
  destruct (find _ _) as [user|] eqn:Hfind; simpl; [| exact H].
  destruct (check_password_hash _ _ _); simpl; [| exact H].
  constructor; auto. unfold session_valid. simpl.
  apply find_some in Hfind. apply in_map. tauto.
Qed.

Lemma logout_integral (w : World) (rq : Request) :
  integral w -> integral (fst (logout w rq)).
Proof.
  intros [P F S]. unfold logout, login_required.
  destruct (current_user w); simpl; constructor; auto. exact I.
Qed.

Lemma add_movie_integral (w : World) (rq : Request) :
  integral w -> integral (fst (add_movie w rq)).
Proof.
  intros H. pose proof H as [[P1 P2 P3 P4] F S]. unfold add_movie, login_required.
  destruct (current_user w); simpl; [| exact H].
  destruct (negb _); simpl; [exact H |].
  destruct (method rq); simpl; [exact H |].
  destruct (movie_form rq) as [[[[[[title genre] poster] year] duration] synopsis]|e];
    simpl; [| destruct e; exact H].
  constructor; simpl; auto.
  - constructor; simpl; auto.
    apply NoDup_map_snoc; [exact P2 | apply next_id_fresh].
  - eapply foreign_keys_grow; [| | | | exact F]; simpl; try reflexivity.
    + apply incl_refl.
    + rewrite map_app. apply incl_appl, incl_refl.
Qed.

Lemma update_movie_ids (st : Store) (old : Movie.t) (title genre poster : string)
    (year : Z) (duration synopsis : string) :
  map Movie.id (movies (fst (update_movie st old title genre poster year duration synopsis)))
  = map Movie.id (movies st).
Proof.
  simpl. rewrite map_map. apply map_ext_in. intros x _.
  destruct (Movie.id x =? Movie.id old)%Z eqn:E; simpl; [| reflexivity].
  apply Z.eqb_eq in E. now rewrite E.
Qed.

Lemma edit_movie_integral (movie_id : Z) (w : World) (rq : Request) :
  integral w -> integral (fst (edit_movie movie_id w rq)).
Proof.
  intros H. pose proof H as [[P1 P2 P3 P4] F S]. unfold edit_movie, login_required.
  destruct (current_user w); simpl; [| exact H].
  destruct (negb _); simpl; [exact H |].
  destruct (get_movie (db w) movie_id) as [movie|]; simpl; [| exact H].
  destruct (method rq); simpl; [exact H |].
  destruct (movie_form rq) as [[[[[[title genre] poster] year] duration] synopsis]|e];
    simpl; [| destruct e; exact H].
  pose proof (update_movie_ids (db w) movie title genre poster year duration synopsis) as Hids.
  simpl in Hids.
  constructor; simpl; auto.
  - constructor; simpl; auto. now rewrite Hids.
  - eapply foreign_keys_grow; [| | | | exact F]; simpl; try reflexivity.
    + apply incl_refl.
    + rewrite Hids. apply incl_refl.
Qed.

Lemma handle_integral (r : Route) (w : World) (rq : Request) :
  integral w -> integral (fst (handle r w rq)).
Proof.
  intro H. destruct r as [| |i|i| |i| | | | |i]; simpl.
  - exact H.
  - exact H.
  - unfold movie_detail. destruct (get_movie (db w) i); exact H.
  - now apply toggle_watchlist_integral.
  - unfold watchlist, login_required. destruct (current_user w); exact H.
  - now apply submit_review_integral.
  - now apply login_integral.
  - now apply register_integral.
  - now apply logout_integral.
  - now apply add_movie_integral.
  - now apply edit_movie_integral.
Qed.

Lemma seed_data_integral (now : Z) (hash : string -> string) :
  integral (mkWorld (seed_data now hash) None).
Proof.
  assert (Eu : map User.id (users (seed_data now hash)) = [1%Z]) by (vm_compute; reflexivity).
  assert (Em : map Movie.id (movies (seed_data now hash)) = [1; 2; 3; 4; 5; 6; 7; 8; 9; 10]%Z)
    by (vm_compute; reflexivity).
  assert (Ew : watchlist_items (seed_data now hash) = []) by (vm_compute; reflexivity).
  assert (Er : reviews (seed_data now hash) = [Review.mk 1 seed_review_text 5 now 1 2])
    by (vm_compute; reflexivity).
  constructor; simpl.
  - constructor; rewrite ?Eu, ?Em, ?Ew, ?Er; simpl.
    + repeat constructor; simpl; tauto.
    + repeat constructor; simpl; lia.
    + constructor.
    + repeat constructor; simpl; tauto.
  - constructor; rewrite ?Eu, ?Em, ?Ew, ?Er; simpl.
    + constructor.
    + repeat constructor; simpl; tauto.
  - exact I.
Qed.

Lemma reachable_integral (w : World) : reachable w -> integral w.
Proof.
  induction 1 as [now hash | | w r rq _ IH].
  - apply seed_data_integral.
  - repeat constructor.
  - destruct (handle r w rq) as [w' resp] eqn:E.
    change w' with (fst (w', resp)). rewrite <- E. now apply handle_integral.
Qed.

(** X5: in every world that the application reaches, the primary keys of
    each of the four tables are pairwise distinct, every watchlist item and
    every review carries the key of a stored user and of a stored movie
    (although SQLite does not enforce the foreign keys), and the key in the
    session, when there is one, is the key of a stored user. *)
Theorem keys_always_sound (w : World) :
  reachable w ->
  primary_keys (db w) /\ foreign_keys (db w) /\ session_valid w.
Proof.
  intro H. destruct (reachable_integral w H) as [P F S]. auto.
Qed.

Lemma keys_always_sound_witness :
  map Review.id (reviews (db example_run)) = [1%Z] /\
  session example_run = Some 1%Z /\
  primary_keys (db example_run) /\ foreign_keys (db example_run) /\
  session_valid example_run.
Proof.
  split; [reflexivity | split; [reflexivity |]].
  apply (keys_always_sound example_run).
  unfold example_run. apply reach_request, reach_request, reach_seeded.
Defined.

(** ** The watchlist page *)

Lemma get_movie_of_key (st : Store) (key : Z) :
  In key (map Movie.id (movies st)) ->
  exists m, get_movie st key = Some m /\ Movie.id m = key.
Proof.
  intro Hin. apply in_map_iff in Hin. destruct Hin as [x [Hx Hin]].
  unfold get_movie.
  destruct (find (fun m => (Movie.id m =? key)%Z) (movies st)) as [m|] eqn:E.
  - exists m. split; [reflexivity |]. apply find_some in E. now apply Z.eqb_eq.
  - apply (find_none _ _ E) in Hin. rewrite Hx, Z.eqb_refl in Hin. discriminate.
Qed.

Lemma flat_map_movies (st : Store) (items : list WatchlistItem.t) :
  Forall (fun i => In (WatchlistItem.movie_id i) (map Movie.id (movies st))) items ->
  map Movie.id
    (flat_map (fun i => match get_movie st (WatchlistItem.movie_id i) with
                        | Some m => [m]
                        | None => []
                        end) items)
  = map WatchlistItem.movie_id items.
Proof.
  induction 1 as [|i items Hi _ IH]; simpl; [reflexivity |].
  destruct (get_movie_of_key _ _ Hi) as (m & Hm & Hid).
  rewrite Hm. simpl. now rewrite Hid, IH.
Qed.

(** X6: when the foreign keys of the watchlist hold, as in every reachable
    world, the watchlist page shows exactly one movie for each item of the
    user, in the order of the items by descending key: the test
    [if item.movie] never leaves an item out. *)
Theorem watchlist_shows_every_item (w : World) (rq : Request) (user : User.t) :
  foreign_keys (db w) ->
  current_user w = Some user ->
  exists movies,
    watchlist w rq = (w, Ok (respond [] (render_watchlist movies))) /\
    map Movie.id movies =
      map WatchlistItem.movie_id
        (sort_by (fun a b => (WatchlistItem.id b <=? WatchlistItem.id a)%Z)
           (filter (fun i => (WatchlistItem.user_id i =? User.id user)%Z)
              (watchlist_items (db w)))).
Proof.
  intros [F _] Huser. unfold watchlist.
  rewrite (login_required_user _ _ _ _ Huser).
  eexists. split; [reflexivity |].
  apply flat_map_movies. apply Forall_forall. intros i Hi.
  apply (Permutation_in _ (sort_by_perm _ _)) in Hi.
  apply filter_In in Hi. rewrite Forall_forall in F. now apply F.
Qed.

Lemma watchlist_shows_every_item_witness :
  let rq := example_request POST [] [] 1700002350 in
  let w := fst (toggle_watchlist 9 (fst (toggle_watchlist 6 example_world rq)) rq) in
  exists movies,
    watchlist w rq = (w, Ok (respond [] (render_watchlist movies))) /\
    map Movie.id movies = [9; 6]%Z.
Proof.
  intros rq w.
  pose (admin := User.mk 1 "admin" "admin@flix.com" (example_hash "password123")).
  assert (F : foreign_keys (db w)).
  { constructor; vm_compute; repeat constructor; tauto. }
  destruct (watchlist_shows_every_item w rq admin F) as (movies & E & Hids).
  - vm_compute. reflexivity.
  - exists movies. split; [exact E |]. rewrite Hids. vm_compute. reflexivity.
Defined.

Lemma sort_by_snoc_first {A} (le : A -> A -> bool) (l : list A) (x : A) :
  (forall y, In y l -> le y x = false) ->
  sort_by le (l ++ [x]) = x :: sort_by le l.
Proof.
  induction l as [|y l IH]; simpl; intro H; [reflexivity |].
  rewrite IH by (intros z Hz; apply H; now right).
  simpl. now rewrite (H y (or_introl eq_refl)).
Qed.

(** X7: adding comes first. When a logged-in user toggles a movie that is
    not on the watchlist, the watchlist page afterwards shows that movie in
    front of what it showed before. *)
Theorem toggled_movie_is_listed_first (w : World) (rq rq' : Request) (user : User.t)
    (movie_id : Z) (movie : Movie.t) (listed : list Movie.t) :
  current_user w = Some user ->
  get_movie (db w) movie_id = Some movie ->
  on_watchlist (db w) (User.id user) movie_id = false ->
  snd (watchlist w rq') = Ok (respond [] (render_watchlist listed)) ->
  let w1 := fst (toggle_watchlist movie_id w rq) in
  snd (watchlist w1 rq') = Ok (respond [] (render_watchlist (movie :: listed))).
Proof.
  intros Huser Hmovie Hoff Hlisted w1.
  assert (Hfind : find (watchlist_by (User.id user) movie_id) (watchlist_items (db w)) = None).
  { unfold on_watchlist in Hoff. rewrite existsb_find in Hoff.
    now destruct (find _ _). }
  assert (Ew1 : w1 = set_db w (mkStore (users (db w)) (movies (db w))
            (watchlist_items (db w) ++
               [WatchlistItem.mk (next_id (map WatchlistItem.id (watchlist_items (db w))))
                  (User.id user) movie_id])%list
            (reviews (db w)))).
  { unfold w1, toggle_watchlist. rewrite (login_required_user _ _ _ _ Huser), Hmovie, Hfind.
    now rewrite (insert_watchlist_item_fresh _ _ _ Hfind). }
  assert (Huser1 : current_user w1 = Some user) by (rewrite Ew1; exact Huser).
  unfold watchlist in *.
  rewrite (login_required_user _ _ _ _ Huser1).
  rewrite (login_required_user _ _ _ _ Huser) in Hlisted.
  simpl in Hlisted. inversion Hlisted as [Hl]. clear Hlisted.
  rewrite Ew1. simpl. rewrite filter_app. simpl. rewrite Z.eqb_refl.
  rewrite sort_by_snoc_first.
  - simpl. unfold get_movie at 1. simpl. fold (get_movie (db w) movie_id).
    rewrite Hmovie. reflexivity.
  - intros y Hy. apply filter_In in Hy. destruct Hy as [Hy _]. simpl.
    apply Z.leb_gt. apply next_id_above. now apply in_map.
Qed.

Lemma toggled_movie_is_listed_first_witness :
  let rq := example_request POST [] [] 1700002400 in
  let w1 := fst (toggle_watchlist 6 example_world rq) in
  let w2 := fst (toggle_watchlist 2 w1 rq) in
  exists rio dune,
    Movie.title rio = "Rio" /\ Movie.title dune = "Dune: Part One" /\
    snd (watchlist w1 rq) = Ok (respond [] (render_watchlist [rio])) /\
    snd (watchlist w2 rq) = Ok (respond [] (render_watchlist [dune; rio])).
Proof.
  intros rq w1 w2.
  pose (admin := User.mk 1 "admin" "admin@flix.com" (example_hash "password123")).
  pose (rio := Movie.mk 6 "Rio"
     "A domesticated blue macaw travels to Rio de Janeiro, where he learns to fly and embrace adventure."
     "https://assets.puzzlefactory.com/puzzle/482/150/original.jpg"
     2011 "Animation" "1h 36m").
  pose (dune := Movie.mk 2 "Dune: Part One"
     "Paul Atreides leads nomadic tribes in a battle to control the desert planet Arrakis and its valuable spice."
     "https://th.bing.com/th/id/OIP.H8940g-GeXdBWSXjUjh2swHaK8?w=205&h=303&c=7&r=0&o=7&cb=ucfimg2&dpr=1.3&pid=1.7&rm=3&ucfimg=1"
     2021 "Sci-Fi" "2h 35m").
  exists rio, dune.
  assert (H1 : snd (watchlist w1 rq) = Ok (respond [] (render_watchlist [rio]))).
  { apply (toggled_movie_is_listed_first example_world rq rq admin 6 rio []);
      vm_compute; reflexivity. }
  split; [reflexivity | split; [reflexivity | split; [exact H1 |]]].
  apply (toggled_movie_is_listed_first w1 rq rq admin 2 dune [rio]);
    [vm_compute; reflexivity .. | exact H1].
Defined.

Lemma existsb_filter_keeps {A} (p q : A -> bool) (l : list A) :
  (forall x, In x l -> p x = true -> q x = true) ->
  existsb p (filter q l) = existsb p l.
Proof.
  induction l as [|x l IH]; simpl; intro H; [reflexivity |].
  rewrite <- IH by (intros y Hy; apply H; now right).
  destruct (p x) eqn:Hp.
  - rewrite (H x (or_introl eq_refl) Hp). simpl. now rewrite Hp.
  - destruct (q x); simpl; now rewrite ?Hp.
Qed.

(** X8: a toggle touches one pair only. With distinct primary keys in the
    watchlist table, [toggle_watchlist] leaves the membership of every other
    (user, movie) pair as it was, whatever the request. *)
Theorem toggle_watchlist_other_pairs (movie_id : Z) (w : World) (rq : Request)
    (uid mid : Z) :
  NoDup (map WatchlistItem.id (watchlist_items (db w))) ->
  (forall user, current_user w = Some user -> (uid, mid) <> (User.id user, movie_id)) ->
  on_watchlist (db (fst (toggle_watchlist movie_id w rq))) uid mid =
    on_watchlist (db w) uid mid.
Proof.
  intros Hpk Hother. unfold toggle_watchlist, login_required.
  destruct (current_user w) as [user|]; simpl; [| reflexivity].
  specialize (Hother user eq_refl).
  destruct (get_movie (db w) movie_id) as [movie|]; simpl; [| reflexivity].
  destruct (find _ _) as [item|] eqn:Hfind; simpl.
  - unfold on_watchlist. simpl. apply existsb_filter_keeps.
    intros j Hj Hkey. apply negb_true_iff, Z.eqb_neq. intro Hid.
    destruct (find_some _ _ Hfind) as [Hin Hitem].
    assert (j = item) by (eapply NoDup_map_injective; eauto).
    subst j. apply watchlist_by_key in Hkey, Hitem. congruence.
  - rewrite (insert_watchlist_item_fresh _ _ _ Hfind). unfold on_watchlist. simpl.
    rewrite existsb_app. simpl. rewrite orb_false_r.
    destruct (watchlist_by uid mid _) eqn:Hnew; [| apply orb_false_r].
    apply watchlist_by_key in Hnew. unfold watchlist_key in Hnew. simpl in Hnew.
    congruence.
Qed.

Lemma toggle_watchlist_other_pairs_witness :
  let rq := example_request POST [] [] 1700002500 in
  let w1 := fst (toggle_watchlist 6 example_world rq) in
  let w2 := fst (toggle_watchlist 2 w1 rq) in
  on_watchlist (db w1) 1 6 = true /\ on_watchlist (db w2) 1 6 = true.
Proof.
  intros rq w1 w2.
  assert (H1 : on_watchlist (db w1) 1 6 = true) by (vm_compute; reflexivity).
  split; [exact H1 |]. rewrite <- H1.
  apply (toggle_watchlist_other_pairs 2 w1 rq 1 6).
  - vm_compute. repeat constructor. intros [].
  - intros user Huser E.
    assert (Hid : User.id user = 1%Z).
    { apply current_user_stored in Huser. destruct Huser as [_ Hs].
      vm_compute in Hs. congruence. }
    rewrite Hid in E. discriminate.
Defined.

(** ** Reviews: what is refused, and what is written *)

(** X9: the three refusals of [submit_review]. For a logged-in user and an
    existing movie: a missing or empty rating or text is answered with
    "Rating and review text are required."; a rating that [int()] rejects
    with "Invalid rating submitted."; a rating that is an integer outside 1
    to 5 with "Rating must be between 1 and 5.". Each time the answer
    redirects to the page of the movie and the world is unchanged. *)
Theorem submit_review_refusals (movie_id : Z) (w : World) (rq : Request)
    (user : User.t) (movie : Movie.t) :
  current_user w = Some user ->
  get_movie (db w) movie_id = Some movie ->
  let refuse msg :=
    (w, Ok (respond [(msg, "error")] (redirect (url_movie_detail movie_id)))) in
  let rating := get "rating" (form rq) in
  let text := get "text" (form rq) in
  ((rating = None \/ rating = Some EmptyString \/
    text = None \/ text = Some EmptyString) ->
   submit_review movie_id w rq = refuse "Rating and review text are required.") /\
  (forall r t, rating = Some r -> text = Some t -> t <> EmptyString ->
     r <> EmptyString -> py_int r = Raise ValueError ->
     submit_review movie_id w rq = refuse "Invalid rating submitted.") /\
  (forall r t n, rating = Some r -> text = Some t -> t <> EmptyString ->
     py_int r = Ok n -> (n < 1 \/ 5 < n)%Z ->
     submit_review movie_id w rq = refuse "Rating must be between 1 and 5.").
Proof.
  intros Huser Hmovie refuse rating text. subst refuse rating text.
  unfold submit_review. rewrite (login_required_user _ _ _ _ Huser), Hmovie.
  repeat split.
  - intros [H | [H | [H | H]]].
    + now rewrite H.
    + rewrite H. now destruct (get "text" (form rq)).
    + rewrite H. now destruct (get "rating" (form rq)).
    + rewrite H. destruct (get "rating" (form rq)) as [r|]; [| reflexivity].
      simpl. now rewrite orb_true_r.
  - intros r t Hr Ht Hne Hrne Hint. rewrite Hr, Ht.
    rewrite (proj2 (truthy_nonempty r) Hrne), (proj2 (truthy_nonempty t) Hne), Hint.
    reflexivity.
  - intros r t n Hr Ht Hne Hint Hout. rewrite Hr, Ht.
    rewrite (py_int_truthy _ _ Hint), (proj2 (truthy_nonempty t) Hne), Hint. simpl.
    replace ((1 <=? n)%Z && (n <=? 5)%Z) with false; [reflexivity |].
    symmetry. apply andb_false_iff. rewrite !Z.leb_gt. lia.
Qed.

Lemma submit_review_refusals_witness :
  let refuse msg :=
    (example_world, Ok (respond [(msg, "error")] (redirect (url_movie_detail 2)))) in
  submit_review 2 example_world (example_request POST [] [("rating", "5")] 1700002600)
    = refuse "Rating and review text are required." /\
  submit_review 2 example_world
    (example_request POST [] [("rating", "five"); ("text", "Great.")] 1700002600)
    = refuse "Invalid rating submitted." /\
  submit_review 2 example_world
    (example_request POST [] [("rating", "6"); ("text", "Great.")] 1700002600)
    = refuse "Rating must be between 1 and 5.".
Proof.
  intro refuse.
  pose (admin := User.mk 1 "admin" "admin@flix.com" (example_hash "password123")).
  pose (dune := Movie.mk 2 "Dune: Part One"
     "Paul Atreides leads nomadic tribes in a battle to control the desert planet Arrakis and its valuable spice."
     "https://th.bing.com/th/id/OIP.H8940g-GeXdBWSXjUjh2swHaK8?w=205&h=303&c=7&r=0&o=7&cb=ucfimg2&dpr=1.3&pid=1.7&rm=3&ucfimg=1"
     2021 "Sci-Fi" "2h 35m").
  assert (Hu : current_user example_world = Some admin) by (vm_compute; reflexivity).
  assert (Hm : get_movie (db example_world) 2 = Some dune) by (vm_compute; reflexivity).
  split; [| split].
  - apply (proj1 (submit_review_refusals 2 example_world _ admin dune Hu Hm)).
    right. right. left. reflexivity.
  - apply (proj1 (proj2 (submit_review_refusals 2 example_world _ admin dune Hu Hm))
             "five" "Great."); try (vm_compute; reflexivity); discriminate.
  - apply (proj2 (proj2 (submit_review_refusals 2 example_world _ admin dune Hu Hm))
             "6" "Great." 6%Z); try (vm_compute; reflexivity); [discriminate | lia].
Defined.

(** X10: what an accepted review writes. For a logged-in user, an existing
    movie, a rating that reads as an integer from 1 to 5 and a non-empty
    text, in a store with distinct review keys and one review per pair at
    most: when the pair has no review, "posted" is flashed and one row with
    a fresh key, the rating, the text and the time of the request is
    appended; when it has one, "updated" is flashed and exactly the rows of
    the pair are rewritten in place, keeping their key. All other rows are as
    before. *)
Theorem submit_review_writes (movie_id : Z) (w : World) (rq : Request)
    (user : User.t) (movie : Movie.t) (rating text : string) (n : Z) :
  NoDup (map Review.id (reviews (db w))) ->
  unique_review_pairs (db w) ->
  current_user w = Some user ->
  get_movie (db w) movie_id = Some movie ->
  get "rating" (form rq) = Some rating ->
  get "text" (form rq) = Some text ->
  py_int rating = Ok n -> (1 <= n <= 5)%Z -> text <> EmptyString ->
  let mine := review_by (User.id user) movie_id in
  let back := redirect (url_movie_detail movie_id) in
  let w' := fst (submit_review movie_id w rq) in
  if existsb mine (reviews (db w)) then
    snd (submit_review movie_id w rq) =
      Ok (respond [("Your review has been updated!", "success")] back) /\
    reviews (db w') =
      map (fun r => if mine r
                    then Review.mk (Review.id r) text n (current_timestamp rq)
                           (Review.user_id r) (Review.movie_id r)
                    else r)
          (reviews (db w))
  else
    snd (submit_review movie_id w rq) =
      Ok (respond [("Your review has been posted!", "success")] back) /\
    reviews (db w') =
      (reviews (db w) ++
         [Review.mk (next_id (map Review.id (reviews (db w)))) text n
            (current_timestamp rq) (User.id user) movie_id])%list.
Proof.
  intros Hpk Huniq Huser Hmovie Hrating Htext Hint Hrange Hne mine back w'.
  subst w' mine back. unfold submit_review.
  rewrite (login_required_user _ _ _ _ Huser), Hmovie, Hrating, Htext.
  rewrite (py_int_truthy _ _ Hint), (proj2 (truthy_nonempty text) Hne), Hint. simpl.
  replace ((1 <=? n)%Z && (n <=? 5)%Z) with true
    by (symmetry; apply andb_true_iff; split; apply Z.leb_le; lia).
  simpl. rewrite existsb_find.
  destruct (find (review_by (User.id user) movie_id) (reviews (db w)))
    as [existing|] eqn:Hfind.
  - simpl. split; [reflexivity |]. apply map_ext_in. intros r Hr.
    destruct (find_some _ _ Hfind) as [Hin Hex].
    destruct (Review.id r =? Review.id existing)%Z eqn:Hid.
    + apply Z.eqb_eq in Hid.
      assert (r = existing) by (eapply (NoDup_map_injective Review.id); eauto).
      subst r. now rewrite Hex.
    + destruct (review_by (User.id user) movie_id r) eqn:Hr'; [| reflexivity].
      apply review_by_key in Hr', Hex.
      assert (r = existing)
        by (eapply (NoDup_map_injective review_key); eauto; congruence).
      subst r. rewrite Z.eqb_refl in Hid. discriminate.
  - rewrite (insert_review_fresh _ _ _ _ _ _ Hfind). simpl. split; reflexivity.
Qed.

Lemma submit_review_writes_witness :
  let rq := example_request POST [] [("rating", "3"); ("text", "Sandy.")] 1700002700 in
  reviews (db (fst (submit_review 2 example_world rq))) =
    [Review.mk 1 "Sandy." 3 1700002700 1 2] /\
  reviews (db (fst (submit_review 6 example_world rq))) =
    [Review.mk 1 seed_review_text 5 1700000000 1 2;
     Review.mk 2 "Sandy." 3 1700002700 1 6].
Proof.
  intro rq.
  pose (admin := User.mk 1 "admin" "admin@flix.com" (example_hash "password123")).
  pose (rio := Movie.mk 6 "Rio"
     "A domesticated blue macaw travels to Rio de Janeiro, where he learns to fly and embrace adventure."
     "https://assets.puzzlefactory.com/puzzle/482/150/original.jpg"
     2011 "Animation" "1h 36m").
  pose (dune := Movie.mk 2 "Dune: Part One"
     "Paul Atreides leads nomadic tribes in a battle to control the desert planet Arrakis and its valuable spice."
     "https://th.bing.com/th/id/OIP.H8940g-GeXdBWSXjUjh2swHaK8?w=205&h=303&c=7&r=0&o=7&cb=ucfimg2&dpr=1.3&pid=1.7&rm=3&ucfimg=1"
     2021 "Sci-Fi" "2h 35m").
  assert (Hpk : NoDup (map Review.id (reviews (db example_world))))
    by (vm_compute; repeat constructor; intros []).
  assert (Hun : unique_review_pairs (db example_world))
    by (unfold unique_review_pairs; vm_compute; repeat constructor; intros []).
  assert (Hu : current_user example_world = Some admin) by (vm_compute; reflexivity).
  assert (Hd : get_movie (db example_world) 2 = Some dune) by (vm_compute; reflexivity).
  assert (Hr : get_movie (db example_world) 6 = Some rio) by (vm_compute; reflexivity).
  assert (Hi : py_int "3" = Ok 3%Z) by (vm_compute; reflexivity).
  assert (Hne : "Sandy." <> EmptyString) by discriminate.
  pose proof (submit_review_writes 2 example_world rq admin dune "3" "Sandy." 3
                Hpk Hun Hu Hd eq_refl eq_refl Hi ltac:(lia) Hne) as H2.
  pose proof (submit_review_writes 6 example_world rq admin rio "3" "Sandy." 3
                Hpk Hun Hu Hr eq_refl eq_refl Hi ltac:(lia) Hne) as H6.
  split.
  - exact (proj2 H2).
  - exact (proj2 H6).
Defined.

(** ** Adding and editing movies *)

Lemma find_snoc {A} (p : A -> bool) (l : list A) (x : A) :
  find p (l ++ [x]) =
    match find p l with
    | Some y => Some y
    | None => if p x then Some x else None
    end.
Proof.
  induction l as [|y l IH]; simpl; [reflexivity |].
  destruct (p y); [reflexivity | exact IH].
Qed.




(** X12: a year that [int()] rejects. For the administrator and a [POST]
    that carries title, genre, poster and such a year, [add_movie] and
    [edit_movie] flash "Invalid input for Year. Please enter a valid number."
    and render the form again, [edit_movie] with the stored movie; neither
    writes anything. *)
Theorem movie_year_rejected (w : World) (rq : Request) (user : User.t)
    (title genre poster year : string) :
  current_user w = Some user ->
  User.username user = "admin" ->
  method rq = POST ->
  get "title" (form rq) = Some title ->
  get "genre" (form rq) = Some genre ->
  get "poster" (form rq) = Some poster ->
  get "year" (form rq) = Some year ->
  py_int year = Raise ValueError ->
  add_movie w rq = (w, Ok (respond [invalid_year] (render_add_movie None))) /\
  (forall movie_id movie, get_movie (db w) movie_id = Some movie ->
     edit_movie movie_id w rq =
       (w, Ok (respond [invalid_year] (render_add_movie (Some movie))))).
Proof.
  intros Huser Hadmin Hpost Ht Hg Hp Hy Hint.
  assert (Hform : movie_form rq = Raise ValueError).
  { unfold movie_form, getitem. rewrite Ht, Hg, Hp, Hy. simpl. now rewrite Hint. }
  split.
  - unfold add_movie.
    rewrite (login_required_user _ _ _ _ Huser), Hadmin, Hpost, Hform. reflexivity.
  - intros movie_id movie Hmovie. unfold edit_movie.
    rewrite (login_required_user _ _ _ _ Huser), Hadmin, Hmovie, Hpost, Hform.
    reflexivity.
Qed.

Lemma movie_year_rejected_witness :
  let rq := example_request POST []
              [("title", "Heat"); ("genre", "Action"); ("poster", "p");
               ("year", "MCMXCV")] 1700002900 in
  add_movie example_world rq =
    (example_world, Ok (respond [invalid_year] (render_add_movie None))).
Proof.
  intro rq.
  pose (admin := User.mk 1 "admin" "admin@flix.com" (example_hash "password123")).
  assert (Hu : current_user example_world = Some admin) by (vm_compute; reflexivity).
  assert (Hi : py_int "MCMXCV" = Raise ValueError) by (vm_compute; reflexivity).
  exact (proj1 (movie_year_rejected example_world rq admin "Heat" "Action" "p" "MCMXCV"
                  Hu eq_refl eq_refl eq_refl eq_refl eq_refl eq_refl Hi)).
Defined.




(** ** Exceptions *)








(** ** Search results *)

Lemma insert_by_sorted {A} (le : A -> A -> bool) (x : A) (l : list A) :
  (forall a b, le a b = false -> le b a = true) ->
  (forall a b c, le a b = true -> le b c = true -> le a c = true) ->
  StronglySorted (fun a b => le a b = true) l ->
  StronglySorted (fun a b => le a b = true) (insert_by le x l).
Proof.
  intros Htotal Htrans. induction 1 as [|y l Hs IH Hy]; simpl.
  - repeat constructor.
  - destruct (le x y) eqn:Hxy.
    + constructor; [now constructor |].
      constructor; [exact Hxy |].
      eapply Forall_impl; [| exact Hy]. intros z Hz. eapply Htrans; eauto.
    + constructor; [exact IH |].
      apply Forall_forall. intros z Hz.
      apply (Permutation_in _ (insert_by_perm le x l)) in Hz.
      destruct Hz as [<- | Hz]; [now apply Htotal |].
      rewrite Forall_forall in Hy. now apply Hy.
Qed.

Lemma sort_by_sorted {A} (le : A -> A -> bool) (l : list A) :
  (forall a b, le a b = false -> le b a = true) ->
  (forall a b c, le a b = true -> le b c = true -> le a c = true) ->
  StronglySorted (fun a b => le a b = true) (sort_by le l).
Proof.
  intros Htotal Htrans. induction l as [|x l IH]; simpl; [constructor |].
  now apply insert_by_sorted.
Qed.









(** ** The pattern of [ilike] *)











(** ** Pages at the edges *)




(** ** The genre list of the index page *)

Lemma distinct_in (l : list string) (x : string) : In x (distinct l) <-> In x l.
Proof.
  induction l as [|y l IH]; simpl; [tauto |].
  rewrite filter_In, IH, negb_true_iff, String.eqb_neq. split.
  - intros [H | [H _]]; auto.
  - intros [H | H]; [now left |].
    destruct (String.string_dec y x) as [E | E]; [now left | right; split; congruence].
Qed.

Lemma distinct_NoDup (l : list string) : NoDup (distinct l).
Proof.
  induction l as [|y l IH]; simpl; constructor.
  - rewrite filter_In, negb_true_iff, String.eqb_neq. intros [_ H]. now apply H.
  - now apply NoDup_filter.
Qed.

Lemma compare_refl (s : string) : String.compare s s = Eq.
Proof.
  induction s as [|c s IH]; simpl; [reflexivity |].
  unfold Ascii.compare. now rewrite N.compare_refl.
Qed.

Lemma compare_lt_trans (a b c : string) :
  String.compare a b = Lt -> String.compare b c = Lt -> String.compare a c = Lt.
Proof.
  revert b c. induction a as [|x a IH]; intros [|y b] [|z c]; simpl;
    try discriminate; try reflexivity.
  destruct (Ascii.compare x y) eqn:Exy; try discriminate;
    destruct (Ascii.compare y z) eqn:Eyz; try discriminate; intros Hab Hbc.
  - apply Ascii.compare_eq_iff in Exy, Eyz. subst.
    unfold Ascii.compare. rewrite N.compare_refl. eauto.
  - apply Ascii.compare_eq_iff in Exy. subst. now rewrite Eyz.
  - apply Ascii.compare_eq_iff in Eyz. subst. now rewrite Exy.
  - assert (Ascii.compare x z = Lt) as ->; [| reflexivity].
    unfold Ascii.compare in *. rewrite N.compare_lt_iff in *. lia.
Qed.

Lemma leb_trans (a b c : string) :
  String.leb a b = true -> String.leb b c = true -> String.leb a c = true.
Proof.
  unfold String.leb. intros Hab Hbc.
  destruct (String.compare a b) eqn:Eab; try discriminate;
    destruct (String.compare b c) eqn:Ebc; try discriminate.
  - apply String.compare_eq_iff in Eab, Ebc. subst. now rewrite compare_refl.
  - apply String.compare_eq_iff in Eab. subst. now rewrite Ebc.
  - apply String.compare_eq_iff in Ebc. subst. now rewrite Eab.
  - now rewrite (compare_lt_trans _ _ _ Eab Ebc).
Qed.

(** X20: the genre list of the index page holds exactly the genres of the
    movie table that are not the empty string, each one once, in ascending
    order of their characters. *)
Theorem index_genres (w : World) (rq : Request) :
  exists genres,
    index w rq = (w, Ok (respond [] (render_index genres))) /\
    (forall g, In g genres <->
               g <> EmptyString /\ In g (map Movie.genre (movies (db w)))) /\
    NoDup genres /\
    StronglySorted (fun a b => String.leb a b = true) genres.
Proof.
  unfold index. eexists. split; [reflexivity |]. repeat split.
  - apply filter_In in H. now apply truthy_nonempty.
  - apply filter_In in H. destruct H as [H _].
    apply (Permutation_in _ (sort_by_perm _ _)) in H. now apply distinct_in.
  - intros [Hne Hin]. apply filter_In. split; [| now apply truthy_nonempty].
    apply (Permutation_in _ (Permutation_sym (sort_by_perm _ _))). now apply distinct_in.
  - apply NoDup_filter.
    apply (Permutation_NoDup (Permutation_sym (sort_by_perm _ _))), distinct_NoDup.
  - assert (Hs : StronglySorted (fun a b => String.leb a b = true)
                   (sort_by String.leb (distinct (map Movie.genre (movies (db w)))))).
    { apply sort_by_sorted.
      - intros a b Hab. destruct (String.leb_total a b); congruence.
      - apply leb_trans. }
    revert Hs. generalize (sort_by String.leb (distinct (map Movie.genre (movies (db w))))).
    induction l as [|x l IH]; intro Hs; simpl; [constructor |].
    inversion Hs as [|? ? Hs' Hx]; subst.
    destruct (truthy x); [| now apply IH].
    constructor; [now apply IH |].
    apply Forall_forall. intros y Hy. apply filter_In in Hy.
    rewrite Forall_forall in Hx. now apply Hx.
Qed.

Lemma index_genres_witness :
  index example_world (example_request GET [] [] 1700003400) =
    (example_world,
     Ok (respond [] (render_index
           ["Action"; "Adventure"; "Animation"; "Comedy"; "Fantasy"; "Sci-Fi"]))).
Proof.
  destruct (index_genres example_world (example_request GET [] [] 1700003400))
    as (genres & E & _).
  rewrite E. vm_compute in E. inversion E. reflexivity.
Defined.

(** ** Logging in *)

(** X21: [login] opens a session only on a verified password. Whenever the
    session after [login] differs from the one before, the request carried an
    identity and a password, the new session holds the key of a stored user
    whose username or email is that identity, and werkzeug accepted the
    password against the hash stored for that user. The database is never
    changed. *)
Theorem login_needs_password (w : World) (rq : Request) :
  let w' := fst (login w rq) in
  db w' = db w /\
  (session w' <> session w ->
   exists user ident password,
     get "identity" (form rq) = Some ident /\
     get "password" (form rq) = Some password /\
     In user (users (db w)) /\
     (User.username user = ident \/ User.email user = ident) /\
     check_password_hash rq (User.password_hash user) password = true /\
     session w' = Some (User.id user)).
Proof.
  intro w'. split; [apply login_db |]. subst w'. unfold login, getitem.
  destruct (current_user w); simpl; [congruence |].
  destruct (method rq); simpl; [congruence |].
  destruct (get "identity" (form rq)) as [ident|]; simpl; [| congruence].
  destruct (get "password" (form rq)) as [password|]; simpl; [| congruence].
  destruct (find _ _) as [user|] eqn:Hfind; simpl; [| congruence].
  destruct (check_password_hash _ _ _) eqn:Hcheck; simpl; [| congruence].
  intros _. exists user, ident, password.
  apply find_some in Hfind. destruct Hfind as [Hin Hby].
  unfold user_by in Hby. apply orb_true_iff in Hby.
  rewrite !String.eqb_eq in Hby. repeat split; auto.
Qed.

Lemma login_needs_password_witness :
  let w := mkWorld example_store None in
  let good := example_request POST []
                [("identity", "admin@flix.com"); ("password", "password123")] 1700003500 in
  let bad := example_request POST []
               [("identity", "admin"); ("password", "letmein")] 1700003500 in
  session (fst (login w good)) = Some 1%Z /\
  session (fst (login w bad)) = None /\
  exists user, In user (users (db w)) /\ User.email user = "admin@flix.com" /\
               check_password_hash good (User.password_hash user) "password123" = true.
Proof.
  intros w good bad.
  assert (Hgood : session (fst (login w good)) = Some 1%Z) by (vm_compute; reflexivity).
  split; [exact Hgood | split; [vm_compute; reflexivity |]].
  destruct (login_needs_password w good) as [_ H].
  destruct H as (user & ident & password & Hi & Hp & Hin & Hby & Hcheck & _).
  - rewrite Hgood. discriminate.
  - assert (ident = "admin@flix.com") by (vm_compute in Hi; congruence).
    assert (password = "password123") by (vm_compute in Hp; congruence).
    subst. exists user. split; [exact Hin | split; [| exact Hcheck]].
    destruct Hby as [Hby | Hby]; [| exact Hby].
    exfalso. vm_compute in Hin. destruct Hin as [<- | []].
    discriminate.
Defined.

(** X22: register, log out, log in again. A visitor registers with a
    username and an email that no stored user has; later the same person logs
    out and logs in with the password and with the username or the email as
    identity. When werkzeug accepts the password against the hash made at
    registration, and the identity used is neither username nor email of an
    older user, the login opens the session of the registered user. *)
Theorem register_logout_login (w : World) (rq1 rq2 rq3 : Request)
    (name mail password ident : string) :
  current_user w = None ->
  method rq1 = POST ->
  get "username" (form rq1) = Some name ->
  get "email" (form rq1) = Some mail ->
  get "password" (form rq1) = Some password ->
  find (user_by name mail) (users (db w)) = None ->
  method rq3 = POST ->
  get "identity" (form rq3) = Some ident ->
  get "password" (form rq3) = Some password ->
  ident = name \/ ident = mail ->
  find (user_by ident ident) (users (db w)) = None ->
  check_password_hash rq3 (generate_password_hash rq1 password) password = true ->
  let w1 := fst (register w rq1) in
  let w2 := fst (logout w1 rq2) in
  let w3 := fst (login w2 rq3) in
  session w1 = Some (next_id (map User.id (users (db w)))) /\
  session w2 = None /\
  session w3 = session w1 /\
  db w3 = db w1.
Proof.
  intros Hanon Hpost Hn Hm Hp Hfree Hpost3 Hi Hp3 Hident Hclear Hcheck w1 w2 w3.
  set (user := User.mk (next_id (map User.id (users (db w)))) name mail
                 (generate_password_hash rq1 password)).
  assert (E1 : w1 = mkWorld (mkStore (users (db w) ++ [user])%list (movies (db w))
                       (watchlist_items (db w)) (reviews (db w))) (Some (User.id user))).
  { unfold w1, register, getitem. rewrite Hanon, Hpost, Hn, Hm, Hp. simpl.
    rewrite Hfree, (insert_user_fresh _ _ _ _ Hfree). reflexivity. }
  assert (Hfind : forall p, find p (users (db w)) = None -> p user = true ->
            find p (users (db w1)) = Some user).
  { intros p Hnone Hyes. rewrite E1. simpl. now rewrite find_snoc, Hnone, Hyes. }
  assert (Hcur1 : current_user w1 = Some user).
  { unfold current_user, get_user. rewrite E1 at 1. simpl session. cbv iota beta.
    apply Hfind.
    - match goal with
      | |- find ?p _ = None => destruct (find p (users (db w))) as [u|] eqn:Eu
      end; [| reflexivity].
      apply find_some in Eu. destruct Eu as [Hin Hk]. apply Z.eqb_eq in Hk.
      apply (in_map User.id) in Hin. apply next_id_above in Hin. simpl in Hk. lia.
    - apply Z.eqb_refl. }
  assert (E2 : w2 = mkWorld (db w1) None).
  { unfold w2, logout. now rewrite (login_required_user _ _ _ _ Hcur1). }
  assert (Hcur2 : current_user w2 = None) by (now rewrite E2).
  assert (Hby : user_by ident ident user = true).
  { unfold user_by. simpl. destruct Hident as [-> | ->];
      rewrite String.eqb_refl; [reflexivity | apply orb_true_r]. }
  assert (E3 : w3 = mkWorld (db w1) (Some (User.id user))).
  { unfold w3, login, getitem. rewrite Hcur2, Hpost3, Hi, Hp3. simpl.
    rewrite E2. simpl db. rewrite (Hfind _ Hclear Hby). simpl User.password_hash.
    rewrite Hcheck. reflexivity. }
  rewrite E3, E2. simpl. rewrite E1. simpl. auto.
Qed.

Lemma register_logout_login_witness :
  let w := mkWorld example_store None in
  let rq2 := example_request GET [] [] 1700003600 in
  let rq3 := example_request POST [] [("identity", "alice"); ("password", "secret")]
               1700003700 in
  let w3 := fst (login (fst (logout (fst (register w example_register)) rq2)) rq3) in
  session w3 = Some 2%Z /\ users (db w3) = (users example_store ++ [alice])%list.
Proof.
  intros w rq2 rq3 w3.
  destruct (register_logout_login w example_register rq2 rq3
              "alice" "alice@example.org" "secret" "alice") as (H1 & _ & H3 & _);
    try (vm_compute; reflexivity).
  - now left.
  - split; [| vm_compute; reflexivity].
    unfold w3. rewrite H3, H1. vm_compute. reflexivity.
Defined.

(** X23: [login] and [register] are for visitors. For a logged-in user both
    answer every request, whatever its method and form, with a redirect to
    the index without a flash, and leave the world as it is: no second
    account is made and the session is kept. *)
Theorem logged_in_user_is_sent_home (w : World) (rq : Request) (user : User.t) :
  current_user w = Some user ->
  login w rq = (w, Ok (respond [] (redirect url_index))) /\
  register w rq = (w, Ok (respond [] (redirect url_index))).
Proof.
  intro Huser. unfold login, register. now rewrite Huser.
Qed.

Lemma logged_in_user_is_sent_home_witness :
  register example_world example_register =
    (example_world, Ok (respond [] (redirect url_index))).
Proof.
  apply (logged_in_user_is_sent_home example_world example_register
           (User.mk 1 "admin" "admin@flix.com" (example_hash "password123"))).
  vm_compute. reflexivity.
Defined.

(** ** Requests served one after the other never fail on a constraint *)

(** X24: the three handlers that guard an [INSERT] by a query never reach
    their [except] branch for the unique constraint: no response of
    [toggle_watchlist] flashes "An error occurred while updating the
    watchlist.", none of [submit_review] flashes "An error occurred while
    posting the review", and none of [register] flashes "An error occurred
    during registration". *)
Theorem unique_constraints_never_fire (movie_id : Z) (w : World) (rq : Request)
    (response : Response) :
  (snd (toggle_watchlist movie_id w rq) = Ok response ->
   ~ In ("An error occurred while updating the watchlist.", "error")
        (flashed response)) /\
  (snd (submit_review movie_id w rq) = Ok response ->
   ~ In ("An error occurred while posting the review: You may have already reviewed this movie.",
         "error") (flashed response)) /\
  (snd (register w rq) = Ok response ->
   forall e, ~ In ("An error occurred during registration: " ++ str_exc e, "error")
                  (flashed response)).
Proof.
  split; [| split].
  - unfold toggle_watchlist, login_required.
    destruct (current_user w); [| intro H; inversion H; simpl; intros [E | []]; discriminate].
    destruct (get_movie (db w) movie_id);
      [| intro H; inversion H; simpl; intros [E | []]; discriminate].
    destruct (find _ _) eqn:Hfind.
    + intro H. inversion H. simpl. intros [E | []]. inversion E.
    + rewrite (insert_watchlist_item_fresh _ _ _ Hfind).
      intro H. inversion H. simpl. intros [E | []]. inversion E.
  - unfold submit_review, login_required.
    destruct (current_user w); [| intro H; inversion H; simpl; intros [E | []]; discriminate].
    destruct (get_movie (db w) movie_id);
      [| intro H; inversion H; simpl; intros [E | []]; discriminate].
    destruct (get "rating" (form rq));
      [| intro H; inversion H; simpl; intros [E | []]; discriminate].
    destruct (get "text" (form rq));
      [| intro H; inversion H; simpl; intros [E | []]; discriminate].
    destruct (negb _ || negb _);
      [intro H; inversion H; simpl; intros [E | []]; discriminate |].
    destruct (py_int _); [| intro H; inversion H; simpl; intros [E | []]; discriminate].
    destruct (negb _); [intro H; inversion H; simpl; intros [E | []]; discriminate |].
    destruct (find _ _) eqn:Hfind.
    + intro H. inversion H. simpl. intros [E | []]. discriminate.
    + rewrite (insert_review_fresh _ _ _ _ _ _ Hfind).
      intro H. inversion H. simpl. intros [E | []]. discriminate.
  - unfold register.
    destruct (current_user w); [intro H; inversion H; simpl; intros e [] |].
    destruct (method rq); [intro H; inversion H; simpl; intros e [] |].
    destruct (_ <- getitem "username" (form rq) ;; _) as [[[name mail] password]|];
      [| discriminate].
    destruct (find _ _) eqn:Hfind.
    + intro H. inversion H. simpl. intros e [E | []]. discriminate.
    + rewrite (insert_user_fresh _ _ _ _ Hfind).
      intro H. inversion H. simpl. intros e [E | []]. discriminate.
Qed.

Lemma unique_constraints_never_fire_witness :
  let rq := example_request POST [] [("rating", "4"); ("text", "Again.")] 1700003800 in
  exists response,
    snd (submit_review 2 example_world rq) = Ok response /\
    flashed response = [("Your review has been updated!", "success")] /\
    ~ In ("An error occurred while posting the review: You may have already reviewed this movie.",
          "error") (flashed response).
Proof.
  intro rq.
  exists (respond [("Your review has been updated!", "success")]
            (redirect (url_movie_detail 2))).
  assert (H : snd (submit_review 2 example_world rq) =
              Ok (respond [("Your review has been updated!", "success")]
                    (redirect (url_movie_detail 2)))) by (vm_compute; reflexivity).
  split; [exact H | split; [reflexivity |]].
  exact (proj1 (proj2 (unique_constraints_never_fire 2 example_world rq _)) H).
Defined.

(** X25: the unique constraints are kept by the handlers themselves. In
    every world that the application reaches, no two watchlist items and no
    two reviews share their (user, movie) pair, and no two users share their
    username or their email. *)
Theorem unique_constraints_always_hold (w : World) :
  reachable w ->
  unique_watchlist_pairs (db w) /\ unique_review_pairs (db w) /\
  unique_usernames (db w) /\ unique_emails (db w).
Proof.
  intro H. destruct (reachable_consistent w H) as [C1 C2 C3 C4 _]. auto.
Qed.

Lemma unique_constraints_always_hold_witness :
  map review_key (reviews (db example_run)) = [(1, 2)]%Z /\
  unique_watchlist_pairs (db example_run) /\ unique_review_pairs (db example_run) /\
  unique_usernames (db example_run) /\ unique_emails (db example_run).
Proof.
  split; [vm_compute; reflexivity |].
  apply (unique_constraints_always_hold example_run).
  unfold example_run. apply reach_request, reach_request, reach_seeded.
Defined.
